(** * kmyth ECDHE/TLS proxy (sgx/demo/server/tls_proxy.c)

    A shallow embedding of the proxy's control flow.  The C code is a
    sequence of calls into OpenSSL, libc and the ECDH demo library
    (ecdh_demo.h); what the proxy itself decides is which calls are made,
    in which order, with which arguments, and when the process exits.

    The model therefore runs the code of tls_proxy.c against an
    environment that answers every external call, and records the calls
    in an event trace.  State that the C code reaches through the
    [TLSProxy *] pointer is threaded through a state monad; [exit()] is an
    outcome of its own, distinct from returning. *)

From Stdlib Require Import ZArith List String Ascii Bool Lia.
Import ListNotations.
Local Open Scope string_scope.
Local Open Scope list_scope.
Local Open Scope Z_scope.

(** ** C data *)

(** Pointers are addresses; [NULL] is 0. *)
Definition ptr := Z.
Definition NULL : ptr := 0.

(** A [char *] that the code only compares with NULL and hands on:
    [None] is the NULL pointer. *)
Definition cstr := option string.

Definition bytes := list Byte.byte.
Definition zeros (n : nat) : bytes := repeat Byte.x00 n.

Definition to_int (z : Z) : Z := (z + 2 ^ 31) mod 2 ^ 32 - 2 ^ 31.
Definition to_size_t (z : Z) : Z := z mod 2 ^ 64.

(** Constants of the system headers the file includes. *)
Definition EXIT_SUCCESS : Z := 0.
Definition EXIT_FAILURE : Z := 1.
Definition TLS1_2_VERSION : Z := 771.       (* 0x0303 *)
Definition SSL_VERIFY_PEER : Z := 1.
Definition SSL_FILETYPE_PEM : Z := 1.
Definition X509_V_OK : Z := 0.
Definition POLLIN : Z := 1.
Definition LOG_ERR : Z := 3.
Definition LOG_INFO : Z := 6.
Definition LOG_DEBUG : Z := 7.
Definition DEMO_LOG_LEVEL : Z := LOG_DEBUG.
Definition NUM_POLL_FDS : Z := 2.
Definition STDOUT : Z := 1.
Definition STDERR : Z := 2.

(** [ECDHServer] (ecdh_demo.h): the members tls_proxy.c touches, and the
    storage of the remaining members (key handles, session key, ...),
    byte by byte from its first offset. *)
Module ECDHServer.
Record t := mk {
  private_key_path : cstr;
  public_cert_path : cstr;
  port : cstr;
  maxconn : Z;
  socket_fd : Z;
  rest : nat -> Byte.byte
}.
Definition zero : t :=
  mk None None None 0 0 (fun _ => Byte.x00).
Definition set_private_key_path (v : cstr) (e : t) : t :=
  mk v (public_cert_path e) (port e) (maxconn e) (socket_fd e) (rest e).
Definition set_public_cert_path (v : cstr) (e : t) : t :=
  mk (private_key_path e) v (port e) (maxconn e) (socket_fd e) (rest e).
Definition set_port (v : cstr) (e : t) : t :=
  mk (private_key_path e) (public_cert_path e) v (maxconn e) (socket_fd e) (rest e).
Definition set_maxconn (v : Z) (e : t) : t :=
  mk (private_key_path e) (public_cert_path e) (port e) v (socket_fd e) (rest e).
End ECDHServer.

(** [TLSConnection] (tls_proxy.h). *)
Module TLSConnection.
Record t := mk {
  host : cstr;
  port : cstr;
  ca_path : cstr;
  client_key_path : cstr;
  client_cert_path : cstr;
  ctx : ptr;       (* SSL_CTX * *)
  conn : ptr       (* BIO * *)
}.
Definition zero : t := mk None None None None None NULL NULL.
Definition set_host (v : cstr) (c : t) : t :=
  mk v (port c) (ca_path c) (client_key_path c) (client_cert_path c) (ctx c) (conn c).
Definition set_port (v : cstr) (c : t) : t :=
  mk (host c) v (ca_path c) (client_key_path c) (client_cert_path c) (ctx c) (conn c).
Definition set_ca_path (v : cstr) (c : t) : t :=
  mk (host c) (port c) v (client_key_path c) (client_cert_path c) (ctx c) (conn c).
Definition set_client_key_path (v : cstr) (c : t) : t :=
  mk (host c) (port c) (ca_path c) v (client_cert_path c) (ctx c) (conn c).
Definition set_client_cert_path (v : cstr) (c : t) : t :=
  mk (host c) (port c) (ca_path c) (client_key_path c) v (ctx c) (conn c).
Definition set_ctx (v : ptr) (c : t) : t :=
  mk (host c) (port c) (ca_path c) (client_key_path c) (client_cert_path c) v (conn c).
Definition set_conn (v : ptr) (c : t) : t :=
  mk (host c) (port c) (ca_path c) (client_key_path c) (client_cert_path c) (ctx c) v.
End TLSConnection.

(** [TLSProxy] (tls_proxy.h). *)
Record TLSProxy := mkProxy {
  ecdhconn : ECDHServer.t;
  tlsconn : TLSConnection.t
}.

(** ** External calls *)

(** Every function tls_proxy.c calls and does not define, with the
    arguments the proxy chooses. *)
Inductive Call :=
  (* libc *)
  | C_exit (status : Z)
  | C_fprintf (stream : Z) (text : string)
  | C_poll (fd0 fd1 : Z) (nfds timeout : Z)
  (* kmyth logging and memory utilities *)
  | C_set_applog_severity_threshold (level : Z)
  | C_kmyth_log (level : Z) (fmt : string)
  | C_secure_memset_proxy
  | C_secure_memset_pfds
  | C_secure_memset_tls_msg_buf (len : Z)
  | C_kmyth_clear_and_free (buf : ptr) (len : Z)
  (* ecdh_demo.h *)
  | C_init
  | C_cleanup
  | C_check_options
  | C_create_server_socket
  | C_load_private_key
  | C_load_public_key
  | C_make_ephemeral_keypair
  | C_recv_ephemeral_public
  | C_send_ephemeral_public
  | C_get_session_key
  | C_ecdh_recv_decrypt
  | C_ecdh_encrypt_send (msg : bytes) (len : Z)
  (* OpenSSL *)
  | C_ERR_get_error
  | C_ERR_reason_error_string (err : Z)
  | C_X509_verify_cert_error_string (err : Z)
  | C_TLS_client_method
  | C_SSL_CTX_new (method : ptr)
  | C_SSL_CTX_set_min_proto_version (ctx : ptr) (version : Z)
  | C_SSL_CTX_set_verify (ctx : ptr) (mode : Z)
  | C_SSL_CTX_set_verify_depth (ctx : ptr) (depth : Z)
  | C_SSL_CTX_load_verify_locations (ctx : ptr) (ca_file : cstr)
  | C_SSL_CTX_set_default_verify_paths (ctx : ptr)
  | C_SSL_CTX_use_PrivateKey_file (ctx : ptr) (file : cstr) (type : Z)
  | C_SSL_CTX_use_certificate_file (ctx : ptr) (file : cstr) (type : Z)
  | C_SSL_CTX_free (ctx : ptr)
  | C_BIO_new_ssl_connect (ctx : ptr)
  | C_BIO_set_conn_hostname (bio : ptr) (name : cstr)
  | C_BIO_set_conn_port (bio : ptr) (port : cstr)
  | C_BIO_get_ssl (bio : ptr)
  | C_BIO_do_connect (bio : ptr)
  | C_BIO_get_fd (bio : ptr)
  | C_BIO_write (bio : ptr) (data : bytes) (len : Z)
  | C_BIO_read (bio : ptr) (len : Z)
  | C_BIO_free_all (bio : ptr)
  | C_SSL_set_tlsext_host_name (ssl : ptr) (name : cstr)
  | C_SSL_set1_host (ssl : ptr) (name : cstr)
  | C_SSL_get_verify_result (ssl : ptr).

(** An event is a call together with the integer (or pointer) it
    returned; calls to [void] functions record 0. *)
Definition Event := (Call * Z)%type.
Definition Trace := list Event.

(** What a function of ecdh_demo.h does to the process: it comes back
    with the connection struct updated, or it ends the process. *)
Inductive Ext (A : Type) :=
  | ExtRet (a : A)
  | ExtExit (status : Z).
Arguments ExtRet {A} a.
Arguments ExtExit {A} status.

(** The environment answers the external calls.  Every answer may depend
    on the whole history of the run.

    - [int_ret]: the value an OpenSSL or libc function returns;
    - [ecdh_ret]: the effect of an ECDH demo function on the struct it
      is handed;
    - [ecdh_init], [ecdh_cleanup]: [init()] and [cleanup()] of
      ecdh_demo.h, the struct's constructor and destructor;
    - [recv_payload]: the buffer [ecdh_recv_decrypt] allocates, its
      address and contents (its length is the recorded message length);
    - [read_data]: the bytes [BIO_read] stores in the caller's buffer;
    - [poll_revents]: the [revents] of the two descriptors after
      [poll];
    - [getopt_long]: the options libc's [getopt_long] yields for an
      argument vector, in order, up to its first -1: the option character
      ("?" for an option it does not know) and [optarg];
    - [atoi]: libc's [atoi]. *)
Record Env := mkEnv {
  getopt_long : list string -> list (ascii * string);
  atoi : string -> Z;
  int_ret : Trace -> Call -> Z;
  ecdh_ret : Trace -> Call -> ECDHServer.t -> Ext ECDHServer.t;
  ecdh_init : ECDHServer.t -> ECDHServer.t;
  ecdh_cleanup : ECDHServer.t -> ECDHServer.t;
  recv_payload : Trace -> ptr * bytes;
  read_data : Trace -> bytes;
  poll_revents : Trace -> Z * Z
}.

(** ** Process state and the monad of the model *)

(** A heap block: its contents, and whether it is still allocated. *)
Record Block := mkBlock { contents : bytes; live : bool }.
Definition Heap := list (ptr * Block).

Fixpoint heap_lookup (p : ptr) (h : Heap) : option Block :=
  match h with
  | [] => None
  | (q, b) :: h' => if Z.eqb p q then Some b else heap_lookup p h'
  end.

Definition heap_store (p : ptr) (b : Block) (h : Heap) : Heap :=
  (p, b) :: filter (fun qb => negb (Z.eqb p (fst qb))) h.

Record Mem := mkMem { proxy : TLSProxy; heap : Heap }.

Definition set_proxy (p : TLSProxy) (m : Mem) : Mem := mkMem p (heap m).
Definition set_heap (h : Heap) (m : Mem) : Mem := mkMem (proxy m) h.

(** How a piece of code ends: it returns a value, the process exits with
    a status, or (relay loop only) the fuel of the model ran out while the
    loop was still running.  Each outcome carries the memory and the
    events emitted since the code started. *)
Inductive Outcome (A : Type) :=
  | Returns (a : A) (m : Mem) (evs : Trace)
  | Exits (status : Z) (m : Mem) (evs : Trace)
  | Running (m : Mem) (evs : Trace).
Arguments Returns {A} a m evs.
Arguments Exits {A} status m evs.
Arguments Running {A} m evs.

Definition events {A} (o : Outcome A) : Trace :=
  match o with
  | Returns _ _ evs | Exits _ _ evs | Running _ evs => evs
  end.

Definition final_mem {A} (o : Outcome A) : Mem :=
  match o with
  | Returns _ m _ | Exits _ m _ | Running m _ => m
  end.

(** A computation reads the history so far and the memory. *)
Definition M (A : Type) := Trace -> Mem -> Outcome A.

Definition ret {A} (a : A) : M A := fun _ m => Returns a m [].

(** [prepend e1 o]: the outcome [o] of a continuation, seen from the
    start of the code that first emitted [e1]. *)
Definition prepend {B} (e1 : Trace) (o : Outcome B) : Outcome B :=
  match o with
  | Returns b m2 e2 => Returns b m2 (e1 ++ e2)
  | Exits s m2 e2 => Exits s m2 (e1 ++ e2)
  | Running m2 e2 => Running m2 (e1 ++ e2)
  end.

(** Sequencing: the continuation runs only if the first part returns. *)
Definition bind {A B} (c : M A) (k : A -> M B) : M B :=
  fun h m =>
    match c h m with
    | Returns a m1 e1 => prepend e1 (k a (h ++ e1) m1)
    | Exits s m1 e1 => Exits s m1 e1
    | Running m1 e1 => Running m1 e1
    end.

Declare Scope proxy_scope.
Delimit Scope proxy_scope with proxy.
Notation "x <- c ;; k" := (bind c (fun x => k))
  (at level 100, c at next level, k at level 200, right associativity)
  : proxy_scope.
Notation "c ;;; k" := (bind c (fun _ => k))
  (at level 100, k at level 200, right associativity) : proxy_scope.
Local Open Scope proxy_scope.

Definition get_proxy : M TLSProxy := fun _ m => Returns (proxy m) m [].
Definition put_proxy (p : TLSProxy) : M unit := fun _ m => Returns tt (set_proxy p m) [].
Definition get_heap : M Heap := fun _ m => Returns (heap m) m [].
Definition put_heap (h : Heap) : M unit := fun _ m => Returns tt (set_heap h m) [].
Definition emit (c : Call) (r : Z) : M unit := fun _ m => Returns tt m [(c, r)].
Definition out_of_fuel {A} : M A := fun _ m => Running m [].

Definition modify_tlsconn (f : TLSConnection.t -> TLSConnection.t) : M unit :=
  p <- get_proxy ;; put_proxy (mkProxy (ecdhconn p) (f (tlsconn p))).
Definition modify_ecdhconn (f : ECDHServer.t -> ECDHServer.t) : M unit :=
  p <- get_proxy ;; put_proxy (mkProxy (f (ecdhconn p)) (tlsconn p)).

(** [exit(status)]: the process ends here. *)
Definition exit {A} (status : Z) : M A :=
  fun _ m => Exits status m [(C_exit status, 0)].

(** ** The code of tls_proxy.c *)

Section Proxy.

Variable env : Env.

(** [ECDH_MAX_MSG_SIZE] (ecdh_demo.h), the size of the relay buffer. *)
Variable ECDH_MAX_MSG_SIZE : Z.

(** *** Calling out *)

(** A call whose integer or pointer result the code uses. *)
Definition call (c : Call) : M Z :=
  fun h m => let r := int_ret env h c in Returns r m [(c, r)].

(** A call to a [void] function (or one whose result is dropped). *)
Definition call_void (c : Call) : M unit := emit c 0.

(** A call to a function of ecdh_demo.h on [&proxy->ecdhconn]. *)
Definition call_ecdh (c : Call) : M unit :=
  fun h m =>
    match ecdh_ret env h c (ecdhconn (proxy m)) with
    | ExtRet e' =>
        Returns tt (set_proxy (mkProxy e' (tlsconn (proxy m))) m) [(c, 0)]
    | ExtExit s => Exits s m [(c, 0); (C_exit s, 0)]
    end.

Definition kmyth_log (level : Z) (msg : string) : M unit :=
  call_void (C_kmyth_log level msg).

(** [secure_memset(proxy, 0, sizeof(TLSProxy))]: every member becomes
    zero. *)
Definition secure_memset_proxy : M unit :=
  call_void C_secure_memset_proxy ;;;
  put_proxy (mkProxy ECDHServer.zero TLSConnection.zero).

(** [init(&proxy->ecdhconn)] and [cleanup(&proxy->ecdhconn)]. *)
Definition init : M unit :=
  call_void C_init ;;; modify_ecdhconn (ecdh_init env).
Definition cleanup : M unit :=
  call_void C_cleanup ;;; modify_ecdhconn (ecdh_cleanup env).

(** Modelled from the spec: [kmyth_clear_and_free] belongs to kmyth's
    memory utilities, which are not part of the sources at hand.  The
    spec's memory-hygiene rule is that a buffer holding plaintext is
    zeroized before free: the [len] bytes at [buf] are overwritten with
    zeros, then the block is released. *)
Definition kmyth_clear_and_free (buf : ptr) (len : Z) : M unit :=
  call_void (C_kmyth_clear_and_free buf len) ;;;
  hp <- get_heap ;;
  match heap_lookup buf hp with
  | Some b =>
      let n := Z.to_nat len in
      put_heap (heap_store buf
                  (mkBlock (zeros (Nat.min n (List.length (contents b)))
                              ++ skipn n (contents b)) false) hp)
  | None => ret tt
  end.

(** Modelled from the spec: [ecdh_recv_decrypt(ecdhconn, &buf, &len)]
    (ecdh_demo.h) is the spec's [recv_and_decrypt() -> payload]: it hands
    back a freshly allocated buffer with the decrypted payload and its
    length, or ends the process. *)
Definition ecdh_recv_decrypt : M (ptr * Z) :=
  fun h m =>
    match ecdh_ret env h C_ecdh_recv_decrypt (ecdhconn (proxy m)) with
    | ExtExit s => Exits s m [(C_ecdh_recv_decrypt, 0); (C_exit s, 0)]
    | ExtRet e' =>
        let (p, data) := recv_payload env h in
        let hp := if p =? NULL then heap m
                  else heap_store p (mkBlock data true) (heap m) in
        Returns (p, to_size_t (Z.of_nat (List.length data)))
                (mkMem (mkProxy e' (tlsconn (proxy m))) hp)
                [(C_ecdh_recv_decrypt, 0)]
    end.

(** [ecdh_encrypt_send(ecdhconn, buf, len)]: the first [len] bytes of
    the caller's buffer are handed over. *)
Definition ecdh_encrypt_send (buf : bytes) (len : Z) : M unit :=
  call_ecdh (C_ecdh_encrypt_send (firstn (Z.to_nat len) buf) len).

(** [BIO_write(bio, buf, len)]: [len] is an [int] parameter; the bytes
    offered are the first [len] bytes of the block at [buf]. *)
Definition BIO_write (bio : ptr) (buf : ptr) (len : Z) : M Z :=
  hp <- get_heap ;;
  let n := to_int len in
  let data := match heap_lookup buf hp with
              | Some b => firstn (Z.to_nat n) (contents b)
              | None => []
              end in
  r <- call (C_BIO_write bio data n) ;;
  ret (to_int r).

(** [blit data buf]: [data] written at the start of [buf]; the buffer
    keeps its size. *)
Definition blit (data buf : bytes) : bytes :=
  firstn (List.length buf) (data ++ skipn (List.length data) buf).

(** [BIO_read(bio, buf, len)]: returns the [int] result and the buffer
    as the call leaves it.  The caller passes [sizeof(tls_msg_buf)], the
    size of an array on the stack, which the conversion to the [int]
    parameter leaves as it is. *)
Definition BIO_read (bio : ptr) (buf : bytes) (len : Z) : M (Z * bytes) :=
  fun h m =>
    let r := to_int (int_ret env h (C_BIO_read bio len)) in
    let buf' := if 0 <? r
                then blit (firstn (Z.to_nat r) (read_data env h)) buf
                else buf in
    Returns (r, buf') m [(C_BIO_read bio len, r)].

(** *** Lifecycle: lines 26-57 *)

Definition proxy_init : M unit :=
  secure_memset_proxy ;;;
  init.

Definition tls_cleanup : M unit :=
  p <- get_proxy ;;
  let tc := tlsconn p in
  (if negb (TLSConnection.conn tc =? NULL)
   then call_void (C_BIO_free_all (TLSConnection.conn tc))
   else ret tt) ;;;
  (if negb (TLSConnection.ctx tc =? NULL)
   then call_void (C_SSL_CTX_free (TLSConnection.ctx tc))
   else ret tt).

Definition proxy_cleanup : M unit :=
  cleanup ;;;
  tls_cleanup ;;;
  proxy_init.

Definition proxy_error {A} : M A :=
  proxy_cleanup ;;;
  exit EXIT_FAILURE.

(** *** Options: lines 59-159 *)

Definition usage_text (prog : string) : string :=
  "
usage: " ++ prog ++ " [options]

options are:

ECDH Connection Information --
  -p or --local-port      The port number to listen on for ECDH connections.
  -r or --private         Local private key PEM file used for ECDH connections.
  -u or --public          Remote public key PEM file used to validate ECDH connections.
TLS Connection Information --
  -I or --remote-ip       The IP address or hostname of the remote server.
  -P or --remote-port     The port number to use when connecting to the remote server.
  -C or --ca-path         Optional certificate file used to verify the remote server (if not specified, the default system CA chain will be used instead).
  -R or --client-key      Local private key PEM file used for TLS connections.
  -U or --client-cert     Local certificate PEM file used for TLS connections.
Test Options --
  -m or --maxconn  The number of connections the server will accept before exiting (unlimited by default, or if the value is not a positive integer).
Misc --
  -h or --help     Help (displays this usage).

".

Definition proxy_usage (prog : string) : M unit :=
  call_void (C_fprintf STDOUT (usage_text prog)).

(** The body of the [switch] in [proxy_get_options]. *)
Definition option_case (prog : string) (options : ascii) (optarg : string)
  : M unit :=
  if Ascii.eqb options "r" then
    modify_ecdhconn (ECDHServer.set_private_key_path (Some optarg))
  else if Ascii.eqb options "u" then
    modify_ecdhconn (ECDHServer.set_public_cert_path (Some optarg))
  else if Ascii.eqb options "p" then
    modify_ecdhconn (ECDHServer.set_port (Some optarg))
  else if Ascii.eqb options "I" then
    modify_tlsconn (TLSConnection.set_host (Some optarg))
  else if Ascii.eqb options "P" then
    modify_tlsconn (TLSConnection.set_port (Some optarg))
  else if Ascii.eqb options "C" then
    modify_tlsconn (TLSConnection.set_ca_path (Some optarg))
  else if Ascii.eqb options "R" then
    modify_tlsconn (TLSConnection.set_client_key_path (Some optarg))
  else if Ascii.eqb options "U" then
    modify_tlsconn (TLSConnection.set_client_cert_path (Some optarg))
  else if Ascii.eqb options "m" then
    modify_ecdhconn (ECDHServer.set_maxconn (to_int (atoi env optarg)))
  else if Ascii.eqb options "h" then
    proxy_usage prog ;;;
    exit EXIT_SUCCESS
  else
    proxy_error.

(** The [while] loop over the results of [getopt_long]. *)
Fixpoint options_loop (prog : string) (opts : list (ascii * string))
  : M unit :=
  match opts with
  | [] => ret tt
  | (options, optarg) :: opts' =>
      option_case prog options optarg ;;;
      options_loop prog opts'
  end.

Definition proxy_get_options (argv : list string) : M unit :=
  let argc := Z.of_nat (List.length argv) in
  let prog := hd "" argv in
  if 1 =? argc then
    proxy_usage prog ;;;
    exit EXIT_SUCCESS
  else
    options_loop prog (getopt_long env argv).

Definition proxy_check_options : M unit :=
  call_ecdh C_check_options ;;;
  p <- get_proxy ;;
  let err := false in
  err <- (match TLSConnection.host (tlsconn p) with
          | None =>
              call_void (C_fprintf STDERR "Remote IP argument (-I) is required.
") ;;;
              ret true
          | Some _ => ret err
          end) ;;
  err <- (match TLSConnection.port (tlsconn p) with
          | None =>
              call_void (C_fprintf STDERR "Remote port number argument (-P) is required.
") ;;;
              ret true
          | Some _ => ret err
          end) ;;
  if err then
    kmyth_log LOG_ERR "Invalid command-line arguments." ;;;
    proxy_error
  else ret tt.

(** *** TLS client construction: lines 161-354 *)

Definition log_openssl_error (err : Z) (label : string) : M unit :=
  str <- call (C_ERR_reason_error_string err) ;;
  if negb (str =? NULL) then
    kmyth_log LOG_ERR (label ++ ": %s")
  else
    kmyth_log LOG_ERR (label ++ " failed: %lu (0x%lx)").

Definition tls_config_ctx : M Z :=
  method <- call C_TLS_client_method ;;
  ssl_err <- call C_ERR_get_error ;;
  if method =? NULL then
    log_openssl_error ssl_err "TLS_client_method" ;;;
    ret (-1)
  else
  ctx <- call (C_SSL_CTX_new method) ;;
  modify_tlsconn (TLSConnection.set_ctx ctx) ;;;
  ssl_err <- call C_ERR_get_error ;;
  if ctx =? NULL then
    log_openssl_error ssl_err "SSL_CTX_new" ;;;
    ret (-1)
  else
  (* Disable deprecated TLS versions. *)
  r <- call (C_SSL_CTX_set_min_proto_version ctx TLS1_2_VERSION) ;;
  ssl_err <- call C_ERR_get_error ;;
  if negb (1 =? r) then
    log_openssl_error ssl_err "SSL_CTX_set_min_proto_version" ;;;
    ret (-1)
  else
  (* Enable certificate verification. *)
  call_void (C_SSL_CTX_set_verify ctx SSL_VERIFY_PEER) ;;;
  call_void (C_SSL_CTX_set_verify_depth ctx 5) ;;;
  (* Enable custom or default certificate authorities.
     Each of the three blocks below leaves the function with -1 when its
     call fails; the flag it yields says that it fell through. *)
  tc <- (p <- get_proxy ;; ret (tlsconn p)) ;;
  ca <- (match TLSConnection.ca_path tc with
         | Some path =>
             r <- call (C_SSL_CTX_load_verify_locations ctx (Some path)) ;;
             ssl_err <- call C_ERR_get_error ;;
             if negb (1 =? r) then
               log_openssl_error ssl_err "SSL_CTX_load_verify_locations" ;;;
               ret false
             else ret true
         | None =>
             r <- call (C_SSL_CTX_set_default_verify_paths ctx) ;;
             ssl_err <- call C_ERR_get_error ;;
             if negb (1 =? r) then
               log_openssl_error ssl_err "SSL_CTX_set_default_verify_paths" ;;;
               ret false
             else ret true
         end) ;;
  if negb ca then ret (-1) else
  (* Set client key - required by some servers. *)
  key <- (match TLSConnection.client_key_path tc with
          | Some path =>
              r <- call (C_SSL_CTX_use_PrivateKey_file ctx (Some path) SSL_FILETYPE_PEM) ;;
              ssl_err <- call C_ERR_get_error ;;
              if negb (1 =? r) then
                log_openssl_error ssl_err "SSL_CTX_use_PrivateKey_file" ;;;
                ret false
              else ret true
          | None => ret true
          end) ;;
  if negb key then ret (-1) else
  (* Set client cert - required by some servers. *)
  cert <- (match TLSConnection.client_cert_path tc with
           | Some path =>
               r <- call (C_SSL_CTX_use_certificate_file ctx (Some path) SSL_FILETYPE_PEM) ;;
               ssl_err <- call C_ERR_get_error ;;
               if negb (1 =? r) then
                 log_openssl_error ssl_err "SSL_CTX_use_certificate_file" ;;;
                 ret false
               else ret true
           | None => ret true
           end) ;;
  if negb cert then ret (-1) else
  ret 0.

Definition tls_config_conn : M Z :=
  tc <- (p <- get_proxy ;; ret (tlsconn p)) ;;
  conn <- call (C_BIO_new_ssl_connect (TLSConnection.ctx tc)) ;;
  modify_tlsconn (TLSConnection.set_conn conn) ;;;
  ssl_err <- call C_ERR_get_error ;;
  if conn =? NULL then
    log_openssl_error ssl_err "BIO_new_ssl_connect" ;;;
    ret (-1)
  else
  r <- call (C_BIO_set_conn_hostname conn (TLSConnection.host tc)) ;;
  ssl_err <- call C_ERR_get_error ;;
  if negb (1 =? r) then
    log_openssl_error ssl_err "BIO_set_conn_hostname" ;;;
    ret (-1)
  else
  r <- call (C_BIO_set_conn_port conn (TLSConnection.port tc)) ;;
  ssl_err <- call C_ERR_get_error ;;
  if negb (1 =? r) then
    log_openssl_error ssl_err "BIO_set_conn_port" ;;;
    ret (-1)
  else
  (* BIO_get_ssl stores the SSL pointer through its second argument *)
  ssl <- call (C_BIO_get_ssl conn) ;;
  ssl_err <- call C_ERR_get_error ;;
  if ssl =? NULL then
    log_openssl_error ssl_err "BIO_get_ssl" ;;;
    ret (-1)
  else
  (* Set hostname for Server Name Indication. *)
  r <- call (C_SSL_set_tlsext_host_name ssl (TLSConnection.host tc)) ;;
  ssl_err <- call C_ERR_get_error ;;
  if negb (1 =? r) then
    log_openssl_error ssl_err "SSL_set_tlsext_host_name" ;;;
    ret (-1)
  else
  (* Set hostname for certificate verification. *)
  r <- call (C_SSL_set1_host ssl (TLSConnection.host tc)) ;;
  ssl_err <- call C_ERR_get_error ;;
  if negb (1 =? r) then
    log_openssl_error ssl_err "SSL_set1_host" ;;;
    ret (-1)
  else
  ret 0.

Definition tls_get_verify_error : M unit :=
  p <- get_proxy ;;
  ssl <- call (C_BIO_get_ssl (TLSConnection.conn (tlsconn p))) ;;
  ssl_err <- call C_ERR_get_error ;;
  if ssl =? NULL then
    log_openssl_error ssl_err "BIO_get_ssl"
  else
  r <- call (C_SSL_get_verify_result ssl) ;;
  let r := to_int r in
  if negb (X509_V_OK =? r) then
    call_void (C_X509_verify_cert_error_string r) ;;;
    kmyth_log LOG_ERR "SSL_get_verify_result: %s"
  else ret tt.

Definition tls_connect : M Z :=
  p <- get_proxy ;;
  r <- call (C_BIO_do_connect (TLSConnection.conn (tlsconn p))) ;;
  ssl_err <- call C_ERR_get_error ;;
  if negb (1 =? r) then
    (* Both connection failures and certificate verification failures
       are caught here. *)
    log_openssl_error ssl_err "BIO_do_connect" ;;;
    tls_get_verify_error ;;;
    ret (-1)
  else
  ret 0.

(** *** Session setup: lines 356-395 *)

Definition setup_ecdhconn : M Z :=
  call_ecdh C_create_server_socket ;;;
  call_ecdh C_load_private_key ;;;
  call_ecdh C_load_public_key ;;;
  call_ecdh C_make_ephemeral_keypair ;;;
  call_ecdh C_recv_ephemeral_public ;;;
  call_ecdh C_send_ephemeral_public ;;;
  call_ecdh C_get_session_key ;;;
  ret 0.

Definition setup_tlsconn : M Z :=
  r <- tls_config_ctx ;;
  (if negb (r =? 0) then proxy_error else ret tt) ;;;
  r <- tls_config_conn ;;
  (if negb (r =? 0) then proxy_error else ret tt) ;;;
  r <- tls_connect ;;
  (if negb (r =? 0) then proxy_error else ret tt) ;;;
  ret 0.

(** *** Relay loop: lines 397-453 *)

(** The local variables of [proxy_start]. *)
Record Locals := mkLocals {
  pfd0 : Z;                 (* pfds[0].fd *)
  pfd1 : Z;                 (* pfds[1].fd *)
  bytes_read : Z;
  bytes_written : Z;
  tls_msg_buf : bytes;
  ecdh_msg_buf : ptr;
  ecdh_msg_len : Z;
  tls_bio : ptr
}.

Definition set_inbound (buf : ptr) (len written : Z) (l : Locals) : Locals :=
  mkLocals (pfd0 l) (pfd1 l) (bytes_read l) written (tls_msg_buf l)
           buf len (tls_bio l).
Definition set_outbound (n : Z) (buf : bytes) (l : Locals) : Locals :=
  mkLocals (pfd0 l) (pfd1 l) n (bytes_written l) buf
           (ecdh_msg_buf l) (ecdh_msg_len l) (tls_bio l).

Inductive LoopCtl := Continue | Break.

(** [if (pfds[0].revents & POLLIN) { ... }] *)
Definition relay_inbound (revents : Z) (l : Locals) : M Locals :=
  if negb (Z.land revents POLLIN =? 0) then
    bl <- ecdh_recv_decrypt ;;
    let (buf, len) := bl : ptr * Z in
    kmyth_log LOG_DEBUG "Received %zu bytes on ECDH connection" ;;;
    written <- BIO_write (tls_bio l) buf len ;;
    (* int against size_t: the int is converted *)
    (if negb (to_size_t written =? len) then
       kmyth_log LOG_ERR "TLS write error" ;;;
       proxy_error
     else ret tt) ;;;
    kmyth_clear_and_free buf len ;;;
    ret (set_inbound buf len written l)
  else ret l.

(** [if (pfds[1].revents & POLLIN) { ... }] *)
Definition relay_outbound (revents : Z) (l : Locals) : M (LoopCtl * Locals) :=
  if negb (Z.land revents POLLIN =? 0) then
    p <- get_proxy ;;
    rb <- BIO_read (TLSConnection.conn (tlsconn p)) (tls_msg_buf l)
                   ECDH_MAX_MSG_SIZE ;;
    let (n, buf) := rb : Z * bytes in
    let l := set_outbound n buf l in
    if n =? 0 then
      kmyth_log LOG_INFO "TLS connection is closed" ;;;
      ret (Break, l)
    else
      (if n <? 0 then
         kmyth_log LOG_ERR "TLS read error" ;;;
         proxy_error
       else ret tt) ;;;
      kmyth_log LOG_DEBUG "Received %zu bytes on TLS connection" ;;;
      ecdh_encrypt_send buf n ;;;
      ret (Continue, l)
  else ret (Continue, l).

(** [poll(pfds, NUM_POLL_FDS, -1)]: the result is dropped, the code reads
    the two [revents]. *)
Definition poll (l : Locals) : M (Z * Z) :=
  fun h m =>
    let c := C_poll (pfd0 l) (pfd1 l) NUM_POLL_FDS (-1) in
    Returns (poll_revents env h) m [(c, int_ret env h c)].

(** One turn of [while (true)]. *)
Definition proxy_iter (l : Locals) : M (LoopCtl * Locals) :=
  rv <- poll l ;;
  l <- relay_inbound (fst rv) l ;;
  relay_outbound (snd rv) l.

(** The loop has no bound in C; the model runs at most [fuel] turns and
    reports [Running] when they are used up. *)
Fixpoint proxy_loop (fuel : nat) (l : Locals) : M Locals :=
  match fuel with
  | O => out_of_fuel
  | S fuel' =>
      r <- proxy_iter l ;;
      match r with
      | (Break, l') => ret l'
      | (Continue, l') => proxy_loop fuel' l'
      end
  end.

(** [proxy_start] returns [void]; the model hands back the locals as
    they are when the stack frame is given up. *)
Definition proxy_start (fuel : nat) : M Locals :=
  p <- get_proxy ;;
  let tls_bio := TLSConnection.conn (tlsconn p) in
  call_void C_secure_memset_pfds ;;;
  call_void (C_secure_memset_tls_msg_buf ECDH_MAX_MSG_SIZE) ;;;
  let tls_msg_buf := zeros (Z.to_nat ECDH_MAX_MSG_SIZE) in
  fd <- call (C_BIO_get_fd tls_bio) ;;
  kmyth_log LOG_DEBUG "Starting proxy loop" ;;;
  proxy_loop fuel
    (mkLocals (ECDHServer.socket_fd (ecdhconn p)) (to_int fd) 0 0
              tls_msg_buf NULL 0 tls_bio).

(** *** Entry points: lines 455-479 *)

Definition proxy_main (fuel : nat) : M unit :=
  (* The ECDH setup must come first because it forks a new process to
     handle each new connection. *)
  setup_ecdhconn ;;;
  setup_tlsconn ;;;
  proxy_start fuel ;;;
  ret tt.

Definition main (fuel : nat) (argv : list string) : M Z :=
  proxy_init ;;;
  call_void (C_set_applog_severity_threshold DEMO_LOG_LEVEL) ;;;
  proxy_get_options argv ;;;
  proxy_check_options ;;;
  proxy_main fuel ;;;
  proxy_cleanup ;;;
  ret EXIT_SUCCESS.

End Proxy.

(** ** Sample environments

    Concrete answers to the external calls, to run the model on. *)

Definition is_BIO_read (e : Event) : bool :=
  match fst e with C_BIO_read _ _ => true | _ => false end.

(** A stand-in for [getopt_long] that knows the short options of
    "r:u:p:I:P:C:R:U:m:h", each given as its own word. *)
Fixpoint short_getopt (args : list string) : list (ascii * string) :=
  match args with
  | String "-" (String c EmptyString) :: rest =>
      if Ascii.eqb c "h" then ("h"%char, "") :: short_getopt rest
      else if existsb (Ascii.eqb c)
                ["r"; "u"; "p"; "I"; "P"; "C"; "R"; "U"; "m"]%char
      then match rest with
           | optarg :: rest' => (c, optarg) :: short_getopt rest'
           | [] => [("?"%char, "")]
           end
      else ("?"%char, "") :: short_getopt rest
  | _ => []
  end.

(** Decimal digits only: enough of [atoi] for the samples. *)
Fixpoint digits (s : string) (acc : Z) : Z :=
  match s with
  | String c s' =>
      let d := Z.of_nat (nat_of_ascii c) - 48 in
      if (0 <=? d) && (d <=? 9) then digits s' (10 * acc + d) else acc
  | EmptyString => acc
  end.

Definition hello : bytes := [Byte.x68; Byte.x65; Byte.x6c; Byte.x6c; Byte.x6f].
Definition world : bytes := [Byte.x77; Byte.x6f; Byte.x72; Byte.x6c; Byte.x64].

(** Every call succeeds.  The peer sends [hello] on each turn, the TLS
    server answers [world] once and then closes; [BIO_write] takes
    [accept] bytes of whatever it is offered ([None]: all of them). *)
Definition sample_env (accept : option Z) : Env :=
  {| getopt_long := fun argv => short_getopt (tl argv);
     atoi := fun s => digits s 0;
     int_ret := fun h c =>
       match c with
       | C_TLS_client_method => 4096
       | C_SSL_CTX_new _ => 8192
       | C_BIO_new_ssl_connect _ => 12288
       | C_BIO_get_ssl _ => 16384
       | C_BIO_get_fd _ => 5
       | C_ERR_get_error | C_ERR_reason_error_string _ => 0
       | C_SSL_get_verify_result _ => X509_V_OK
       | C_BIO_write _ _ len => match accept with Some n => n | None => len end
       | C_BIO_read _ _ => if existsb is_BIO_read h then 0 else 5
       | _ => 1
       end;
     ecdh_ret := fun _ _ e => ExtRet e;
     ecdh_init := fun e => e;
     ecdh_cleanup := fun e => e;
     recv_payload := fun _ => (20480, hello);
     read_data := fun _ => world;
     poll_revents := fun _ => (POLLIN, POLLIN) |}.


Definition empty_mem : Mem :=
  mkMem (mkProxy ECDHServer.zero TLSConnection.zero) [].

(** A proxy configured for a remote host, with optional client
    credentials. *)
Definition configured (key cert : cstr) : Mem :=
  mkMem (mkProxy ECDHServer.zero
           (TLSConnection.mk (Some "keyserver.example") (Some "443") None
                             key cert NULL NULL)) [].

(** The events of a session setup with both client credentials
    configured, against an environment in which every call succeeds. *)
Definition mutual_tls_setup : Outcome Z :=
  setup_tlsconn (sample_env None) []
                (configured (Some "client.key") (Some "client.crt")).

(** The same with a client key and no client certificate. *)
Definition key_only_setup : Outcome Z :=
  setup_tlsconn (sample_env None) [] (configured (Some "client.key") None).

(** A complete command line. *)
Definition sample_argv : list string :=
  ["tls_proxy"; "-I"; "keyserver.example"; "-P"; "443"].

(** The process on that command line, with a relay buffer of 8 bytes
    and fuel for three loop turns: once with every [BIO_write] taking
    the whole payload, once with [BIO_write] taking 3 of the 5 bytes. *)
Definition full_write_run : Outcome Z :=
  main (sample_env None) 8 3 sample_argv [] empty_mem.
Definition short_write_run : Outcome Z :=
  main (sample_env (Some 3)) 8 3 sample_argv [] empty_mem.


(** Every call succeeds, and [poll] never reports anything to read. *)
Definition idle_env : Env :=
  let e := sample_env None in
  {| getopt_long := getopt_long e;
     atoi := atoi e;
     int_ret := int_ret e;
     ecdh_ret := ecdh_ret e;
     ecdh_init := ecdh_init e;
     ecdh_cleanup := ecdh_cleanup e;
     recv_payload := recv_payload e;
     read_data := read_data e;
     poll_revents := fun _ => (0, 0) |}.

(** A session on a configured proxy, without client credentials. *)
Definition session_run : Outcome unit :=
  proxy_main (sample_env None) 8 3 [] (configured None None).

(** Every call succeeds, except that [create_server_socket] ends the
    process itself, with status 0. *)
Definition quitting_env : Env :=
  let e := sample_env None in
  {| getopt_long := getopt_long e;
     atoi := atoi e;
     int_ret := int_ret e;
     ecdh_ret := fun _ c x =>
       match c with
       | C_create_server_socket => ExtExit 0
       | _ => ExtRet x
       end;
     ecdh_init := ecdh_init e;
     ecdh_cleanup := ecdh_cleanup e;
     recv_payload := recv_payload e;
     read_data := read_data e;
     poll_revents := poll_revents e |}.

(** The process on the complete command line in that environment. *)
Definition library_exit_run : Outcome Z :=
  main quitting_env 8 3 sample_argv [] empty_mem.

(** Session setup followed by the relay loop, to look at the locals
    [proxy_start] leaves behind. *)
Definition relay_frame_run : Outcome Locals :=
  bind (setup_tlsconn (sample_env None))
       (fun _ => proxy_start (sample_env None) 8 3)
       [] (configured None None).

(** Locals of [proxy_start] at the top of a loop turn. *)
Definition sample_locals : Locals :=
  mkLocals 4 5 0 0 (zeros 8) NULL 0 12288.

(** Locals, memory and events of a loop turn from [sample_locals] once
    its inbound half has relayed [hello]. *)
Definition relayed_locals : Locals := set_inbound 20480 5 5 sample_locals.
Definition relayed_mem : Mem :=
  mkMem (proxy (configured None None)) [(20480, mkBlock (zeros 5) false)].
Definition relayed_events : Trace :=
  [(C_ecdh_recv_decrypt, 0);
   (C_kmyth_log LOG_DEBUG "Received %zu bytes on ECDH connection", 0);
   (C_BIO_write 12288 hello 5, 5);
   (C_kmyth_clear_and_free 20480 5, 0)].

(** ** Vocabulary of the statements *)

(** The state [proxy_init] produces: all members zero, then [init()] on
    the ECDH part. *)
Definition initial_proxy (env : Env) : TLSProxy :=
  mkProxy (ecdh_init env ECDHServer.zero) TLSConnection.zero.

(** The OpenSSL handles [tls_cleanup] releases. *)
Definition tls_cleanup_events (tc : TLSConnection.t) : Trace :=
  (if negb (TLSConnection.conn tc =? NULL)
   then [(C_BIO_free_all (TLSConnection.conn tc), 0)] else [])
  ++ (if negb (TLSConnection.ctx tc =? NULL)
      then [(C_SSL_CTX_free (TLSConnection.ctx tc), 0)] else []).

(** The calls of one [proxy_cleanup]. *)
Definition cleanup_events (tc : TLSConnection.t) : Trace :=
  (C_cleanup, 0) :: tls_cleanup_events tc
  ++ [(C_secure_memset_proxy, 0); (C_init, 0)].

Definition is_connect (e : Event) : bool :=
  match fst e with C_BIO_do_connect _ => true | _ => false end.
Definition is_BIO_write (e : Event) : bool :=
  match fst e with C_BIO_write _ _ _ => true | _ => false end.
Definition is_clear_and_free (e : Event) : bool :=
  match fst e with C_kmyth_clear_and_free _ _ => true | _ => false end.
Definition is_use_PrivateKey_file (e : Event) : bool :=
  match fst e with C_SSL_CTX_use_PrivateKey_file _ _ _ => true | _ => false end.
Definition is_use_certificate_file (e : Event) : bool :=
  match fst e with C_SSL_CTX_use_certificate_file _ _ _ => true | _ => false end.

(** A call to set the protocol floor that did not return 1. *)
Definition is_failed_floor (e : Event) : bool :=
  match e with
  | (C_SSL_CTX_set_min_proto_version _ _, r) => negb (r =? 1)
  | _ => false
  end.

(** [absent p evs]: no event of [evs] satisfies [p]. *)
Definition absent (p : Event -> bool) (evs : Trace) : Prop :=
  existsb p evs = false.

(** The calls of [setup_ecdhconn], in the order of the source. *)
Definition handshake_calls : list Call :=
  [C_create_server_socket; C_load_private_key; C_load_public_key;
   C_make_ephemeral_keypair; C_recv_ephemeral_public;
   C_send_ephemeral_public; C_get_session_key].

(** The options [proxy_get_options] stores without further ado. *)
Definition stores (c : ascii) : bool :=
  existsb (Ascii.eqb c) ["r"; "u"; "p"; "I"; "P"; "C"; "R"; "U"; "m"]%char.

(** The first option that is not one of these, if any. *)
Fixpoint first_special (opts : list (ascii * string)) : option ascii :=
  match opts with
  | [] => None
  | (c, _) :: opts' => if stores c then first_special opts' else Some c
  end.

(** The command line asks for the usage text: it is empty, or [-h] comes
    before any option the proxy does not know. *)
Definition usage_requested (env : Env) (argv : list string) : Prop :=
  List.length argv = 1%nat \/
  first_special (getopt_long env argv) = Some "h"%char.

(** The functions of ecdh_demo.h that may end the process themselves. *)
Definition is_ecdh_call (c : Call) : bool :=
  match c with
  | C_check_options | C_create_server_socket | C_load_private_key
  | C_load_public_key | C_make_ephemeral_keypair | C_recv_ephemeral_public
  | C_send_ephemeral_public | C_get_session_key | C_ecdh_recv_decrypt
  | C_ecdh_encrypt_send _ _ => true
  | _ => false
  end.

(** The process was ended with status [s] inside the ECDH library: the
    last call of the trace [e] is one of its functions, and [exit(s)]
    came from within it. *)
Definition library_exit (s : Z) (e : Trace) : Prop :=
  exists e0 c, e = e0 ++ [(c, 0); (C_exit s, 0)] /\ is_ecdh_call c = true.

(** Some option of the parsed command line is [c]. *)
Definition has_option (c : ascii) (opts : list (ascii * string)) : bool :=
  existsb (fun o => Ascii.eqb (fst o) c) opts.


(** The log line of the relay loop when the TLS peer has closed. *)
Definition tls_closed : Event :=
  (C_kmyth_log LOG_INFO "TLS connection is closed", 0).




(** [after evs o Q]: [Q] holds of the outcome [o] of the rest of a piece
    of code whose first part emitted [evs]. *)
Definition after {A} (evs : Trace) (o : Outcome A) (Q : Outcome A -> Prop)
  : Prop :=
  Q (prepend evs o).

(** The text [log_openssl_error] logs, given what
    [ERR_reason_error_string] returned. *)
Definition openssl_error_text (str : ptr) (label : string) : string :=
  if negb (str =? NULL) then (label ++ ": %s")%string
  else (label ++ " failed: %lu (0x%lx)")%string.

(** The members of [TLSConnection] that hold configuration. *)
Definition same_config (tc tc' : TLSConnection.t) : Prop :=
  TLSConnection.host tc' = TLSConnection.host tc /\
  TLSConnection.port tc' = TLSConnection.port tc /\
  TLSConnection.ca_path tc' = TLSConnection.ca_path tc /\
  TLSConnection.client_key_path tc' = TLSConnection.client_key_path tc /\
  TLSConnection.client_cert_path tc' = TLSConnection.client_cert_path tc.

(** The context [c] was set up by the calls in [e]: protocol floor,
    verification mode and depth, and each client credential that is
    configured. *)
Definition ctx_configured (tc : TLSConnection.t) (c : ptr) (e : Trace)
  : Prop :=
  In (C_SSL_CTX_set_min_proto_version c TLS1_2_VERSION, 1) e /\
  In (C_SSL_CTX_set_verify c SSL_VERIFY_PEER, 0) e /\
  In (C_SSL_CTX_set_verify_depth c 5, 0) e /\
  (forall k, TLSConnection.client_key_path tc = Some k ->
     In (C_SSL_CTX_use_PrivateKey_file c (Some k) SSL_FILETYPE_PEM, 1) e) /\
  (forall k, TLSConnection.client_cert_path tc = Some k ->
     In (C_SSL_CTX_use_certificate_file c (Some k) SSL_FILETYPE_PEM, 1) e).

(** The connection BIO [bio] was built on context [c] and bound to the
    configured host by the calls in [e]. *)
Definition conn_configured (tc : TLSConnection.t) (c bio : ptr) (e : Trace)
  : Prop :=
  In (C_BIO_new_ssl_connect c, bio) e /\
  exists ssl,
    In (C_BIO_get_ssl bio, ssl) e /\
    In (C_SSL_set_tlsext_host_name ssl (TLSConnection.host tc), 1) e /\
    In (C_SSL_set1_host ssl (TLSConnection.host tc), 1) e.

(** No connection attempt in [e], and no credential loaded that is not
    configured. *)
Definition quiet (tc : TLSConnection.t) (e : Trace) : Prop :=
  absent is_connect e /\
  (TLSConnection.client_key_path tc = None ->
     absent is_use_PrivateKey_file e) /\
  (TLSConnection.client_cert_path tc = None ->
     absent is_use_certificate_file e).

(** What [tls_config_ctx] guarantees, from memory [m]. *)
Definition ctx_post (m : Mem) (o : Outcome Z) : Prop :=
  match o with
  | Returns r m' e =>
      let tc := tlsconn (proxy m) in
      let tc' := tlsconn (proxy m') in
      heap m' = heap m /\
      ecdhconn (proxy m') = ecdhconn (proxy m) /\
      same_config tc tc' /\
      TLSConnection.conn tc' = TLSConnection.conn tc /\
      quiet tc e /\
      (r = 0 -> absent is_failed_floor e) /\
      (r = 0 -> ctx_configured tc (TLSConnection.ctx tc') e)
  | _ => False
  end.

(** What [tls_config_conn] guarantees. *)
Definition conn_post (m : Mem) (o : Outcome Z) : Prop :=
  match o with
  | Returns r m' e =>
      let tc := tlsconn (proxy m) in
      let tc' := tlsconn (proxy m') in
      heap m' = heap m /\
      ecdhconn (proxy m') = ecdhconn (proxy m) /\
      same_config tc tc' /\
      TLSConnection.ctx tc' = TLSConnection.ctx tc /\
      quiet tc e /\
      absent is_use_PrivateKey_file e /\
      absent is_use_certificate_file e /\
      absent is_failed_floor e /\
      (r = 0 ->
       conn_configured tc (TLSConnection.ctx tc) (TLSConnection.conn tc') e)
  | _ => False
  end.

(** What [tls_connect] guarantees. *)
Definition connect_post (m : Mem) (o : Outcome Z) : Prop :=
  match o with
  | Returns r m' e =>
      m' = m /\
      exists x e',
        e = (C_BIO_do_connect (TLSConnection.conn (tlsconn (proxy m))), x) :: e' /\
        absent is_connect e' /\
        absent is_use_PrivateKey_file e /\
        absent is_use_certificate_file e /\
        (r = 0 -> x = 1)
  | _ => False
  end.

(** What [setup_tlsconn] guarantees: it returns 0 or the process has
    exited with [EXIT_FAILURE] after the teardown; and wherever the event
    trace shows a connection attempt, the events before it configured the
    context and the connection. *)
Definition setup_post (env : Env) (m : Mem) (o : Outcome Z) : Prop :=
  let tc := tlsconn (proxy m) in
  match o with
  | Returns r m' e =>
      r = 0 /\ heap m' = heap m /\
      exists pre bio post, e = pre ++ (C_BIO_do_connect bio, 1) :: post
  | Exits s m' e =>
      s = EXIT_FAILURE /\ proxy m' = initial_proxy env /\ heap m' = heap m /\
      exists e0 tc',
        e = e0 ++ cleanup_events tc' ++ [(C_exit EXIT_FAILURE, 0)]
  | Running _ _ => False
  end /\
  (TLSConnection.client_key_path tc = None ->
     absent is_use_PrivateKey_file (events o)) /\
  (TLSConnection.client_cert_path tc = None ->
     absent is_use_certificate_file (events o)) /\
  forall pre bio x post,
    events o = pre ++ (C_BIO_do_connect bio, x) :: post ->
    absent is_failed_floor pre /\
    exists c, ctx_configured tc c pre /\ conn_configured tc c bio pre.

(** What [setup_ecdhconn] guarantees: the handshake calls are made in
    the order of [handshake_calls]; the function returns 0 after all of
    them, unless one of them ended the process. *)
Definition handshake_post (o : Outcome Z) : Prop :=
  match o with
  | Returns r _ e => r = 0 /\ map fst e = handshake_calls
  | Exits s _ e =>
      exists n, (n < 7)%nat /\
        map fst e = firstn (S n) handshake_calls ++ [C_exit s]
  | Running _ _ => False
  end.

(** What [BIO_read] on the TLS connection gives in history [h]: the
    result as the [int] the code stores in [bytes_read], and the relay
    buffer as the call leaves it. *)
Definition tls_read (ECDH_MAX_MSG_SIZE : Z) (m : Mem) : Call :=
  C_BIO_read (TLSConnection.conn (tlsconn (proxy m))) ECDH_MAX_MSG_SIZE.
Definition tls_read_result (env : Env) (ECDH_MAX_MSG_SIZE : Z) (h : Trace)
           (m : Mem) : Z :=
  to_int (int_ret env h (tls_read ECDH_MAX_MSG_SIZE m)).
Definition tls_read_buffer (env : Env) (ECDH_MAX_MSG_SIZE : Z) (l : Locals)
           (h : Trace) (m : Mem) : bytes :=
  let n := tls_read_result env ECDH_MAX_MSG_SIZE h m in
  if 0 <? n then blit (firstn (Z.to_nat n) (read_data env h)) (tls_msg_buf l)
  else tls_msg_buf l.

(** The calls of the outbound half up to and including the hand-over
    to [ecdh_encrypt_send], after a read of [n] bytes into [buf]. *)
Definition outbound_received (ECDH_MAX_MSG_SIZE : Z) (m : Mem) (n : Z)
  : Trace :=
  [(tls_read ECDH_MAX_MSG_SIZE m, n);
   (C_kmyth_log LOG_DEBUG "Received %zu bytes on TLS connection", 0)].
Definition outbound_send (buf : bytes) (n : Z) : Call :=
  C_ecdh_encrypt_send (firstn (Z.to_nat n) buf) n.

(** The calls of a read failure: the read, the error line, the
    teardown, [exit(EXIT_FAILURE)]. *)
Definition read_failure (ECDH_MAX_MSG_SIZE : Z) (m : Mem) (n : Z) : Trace :=
  [(tls_read ECDH_MAX_MSG_SIZE m, n);
   (C_kmyth_log LOG_ERR "TLS read error", 0)]
    ++ cleanup_events (tlsconn (proxy m))
    ++ [(C_exit EXIT_FAILURE, 0)].

(** What the outbound half of a loop turn does when the TLS side is
    readable, from locals [l], in history [h] and memory [m].  It asks
    [BIO_read] for [ECDH_MAX_MSG_SIZE] bytes; with [n] the result and
    [buf] the buffer as the call leaves it,
    - [n = 0]: the turn ends with [Break], after the log line only;
    - [n < 0]: the process exits with [EXIT_FAILURE] after the error
      line and the teardown;
    - [0 < n]: the first [n] bytes of [buf] go to [ecdh_encrypt_send]
      with the count [n], and the turn ends with [Continue], unless that
      call ended the process;
    and if the read delivered [n] bytes that fit the buffer, these are
    the bytes handed over. *)
Definition outbound_post (env : Env) (ECDH_MAX_MSG_SIZE : Z) (l : Locals)
           (h : Trace) (m : Mem) (o : Outcome (LoopCtl * Locals)) : Prop :=
  let n := tls_read_result env ECDH_MAX_MSG_SIZE h m in
  let buf := tls_read_buffer env ECDH_MAX_MSG_SIZE l h m in
  let received := outbound_received ECDH_MAX_MSG_SIZE m n in
  (n = 0 ->
   o = Returns (Break, set_outbound 0 (tls_msg_buf l) l) m
               [(tls_read ECDH_MAX_MSG_SIZE m, 0); tls_closed]) /\
  (n < 0 ->
   o = Exits EXIT_FAILURE (set_proxy (initial_proxy env) m)
             (read_failure ECDH_MAX_MSG_SIZE m n)) /\
  (0 < n ->
   match ecdh_ret env (h ++ received) (outbound_send buf n)
                  (ecdhconn (proxy m)) with
   | ExtRet e' =>
       o = Returns (Continue, set_outbound n buf l)
                   (set_proxy (mkProxy e' (tlsconn (proxy m))) m)
                   (received ++ [(outbound_send buf n, 0)])
   | ExtExit s =>
       o = Exits s m (received ++ [(outbound_send buf n, 0); (C_exit s, 0)])
   end) /\
  (0 < n <= Z.of_nat (List.length (tls_msg_buf l)) ->
   (Z.to_nat n <= List.length (read_data env h))%nat ->
   In (C_ecdh_encrypt_send (firstn (Z.to_nat n) (read_data env h)) n, 0)
      (events o)).

(** What a turn of the relay loop does when [poll] reports the TLS side
    readable and the inbound half has returned, with locals [l], in
    history [h] and memory [m], after the events [pre] of the turn so
    far.  With [n] and [buf] as above,
    - [n = 0]: the loop is left and [proxy_loop] returns;
    - [n < 0]: the process exits with [EXIT_FAILURE] after the error
      line and the teardown;
    - [0 < n]: after the hand-over to [ecdh_encrypt_send] the loop goes
      into its next turn, unless that call ended the process. *)
Definition outbound_loop_post (env : Env) (ECDH_MAX_MSG_SIZE : Z)
           (fuel : nat) (l : Locals) (h : Trace) (m : Mem) (pre : Trace)
           (o : Outcome Locals) : Prop :=
  let n := tls_read_result env ECDH_MAX_MSG_SIZE h m in
  let buf := tls_read_buffer env ECDH_MAX_MSG_SIZE l h m in
  let received := outbound_received ECDH_MAX_MSG_SIZE m n in
  (n = 0 ->
   o = Returns (set_outbound 0 (tls_msg_buf l) l) m
               (pre ++ [(tls_read ECDH_MAX_MSG_SIZE m, 0); tls_closed])) /\
  (n < 0 ->
   o = Exits EXIT_FAILURE (set_proxy (initial_proxy env) m)
             (pre ++ read_failure ECDH_MAX_MSG_SIZE m n)) /\
  (0 < n ->
   match ecdh_ret env (h ++ received) (outbound_send buf n)
                  (ecdhconn (proxy m)) with
   | ExtRet e' =>
       o = prepend (pre ++ received ++ [(outbound_send buf n, 0)])
             (proxy_loop env ECDH_MAX_MSG_SIZE fuel (set_outbound n buf l)
                (h ++ received ++ [(outbound_send buf n, 0)])
                (set_proxy (mkProxy e' (tlsconn (proxy m))) m))
   | ExtExit s =>
       o = Exits s m (pre ++ received
                          ++ [(outbound_send buf n, 0); (C_exit s, 0)])
   end).

(** The [poll] of a loop turn from locals [l] in history [h]. *)
Definition polled (env : Env) (l : Locals) (h : Trace) : Event :=
  (C_poll (pfd0 l) (pfd1 l) NUM_POLL_FDS (-1),
   int_ret env h (C_poll (pfd0 l) (pfd1 l) NUM_POLL_FDS (-1))).







(** ** Vocabulary of the further properties *)

Definition is_load_verify_locations (e : Event) : bool :=
  match fst e with C_SSL_CTX_load_verify_locations _ _ => true | _ => false end.
Definition is_set_default_verify_paths (e : Event) : bool :=
  match fst e with C_SSL_CTX_set_default_verify_paths _ => true | _ => false end.

(** A line logged at [LOG_ERR]. *)
Definition is_error_log (e : Event) : bool :=
  match fst e with C_kmyth_log level _ => level =? LOG_ERR | _ => false end.

(** Where [tls_config_ctx] takes the trust roots from: the configured CA
    file and nothing else, or the default paths of the system. *)
Definition trust_roots_post (m : Mem) (o : Outcome Z) : Prop :=
  match o with
  | Returns r m' e =>
      let c := TLSConnection.ctx (tlsconn (proxy m')) in
      match TLSConnection.ca_path (tlsconn (proxy m)) with
      | Some path =>
          absent is_set_default_verify_paths e /\
          (r = 0 -> In (C_SSL_CTX_load_verify_locations c (Some path), 1) e)
      | None =>
          absent is_load_verify_locations e /\
          (r = 0 -> In (C_SSL_CTX_set_default_verify_paths c, 1) e)
      end
  | _ => False
  end.

(** A configuration step returns 0 without a line at [LOG_ERR], or -1
    after at least one. *)
Definition logged_result (o : Outcome Z) : Prop :=
  match o with
  | Returns r _ e =>
      (r = 0 /\ absent is_error_log e) \/
      (r = -1 /\ existsb is_error_log e = true)
  | _ => False
  end.

(** What [tls_connect] reports: the first call is [BIO_do_connect] on the
    connection of the struct, the function returns 0 exactly if that
    call returned 1, and -1 otherwise; in that case it asks for the SSL
    object of the connection and, if there is one and its verification
    result [v] is not [X509_V_OK], logs the text of [v]. *)
Definition connect_report_post (m : Mem) (o : Outcome Z) : Prop :=
  match o with
  | Returns r m' e =>
      let bio := TLSConnection.conn (tlsconn (proxy m)) in
      m' = m /\
      exists x,
        hd_error e = Some (C_BIO_do_connect bio, x) /\
        (x = 1 -> r = 0 /\ List.length e = 2%nat) /\
        (x <> 1 ->
         r = -1 /\
         exists ssl,
           In (C_BIO_get_ssl bio, ssl) e /\
           (ssl <> NULL ->
            exists v,
              In (C_SSL_get_verify_result ssl, v) e /\
              (to_int v <> X509_V_OK ->
               In (C_X509_verify_cert_error_string (to_int v), 0) e /\
               In (C_kmyth_log LOG_ERR "SSL_get_verify_result: %s", 0) e)))
  | _ => False
  end.

(** The OpenSSL handles a trace creates and frees: the non-NULL results
    of [SSL_CTX_new] and of [BIO_new_ssl_connect], the arguments of
    [SSL_CTX_free] and of [BIO_free_all], in the order of the calls. *)
Definition held (p : ptr) : list ptr := if p =? NULL then [] else [p].
Definition ctx_created (e : Trace) : list ptr :=
  flat_map (fun ev => match ev with
                      | (C_SSL_CTX_new _, c) => held c
                      | _ => []
                      end) e.
Definition bio_created (e : Trace) : list ptr :=
  flat_map (fun ev => match ev with
                      | (C_BIO_new_ssl_connect _, b) => held b
                      | _ => []
                      end) e.
Definition ctx_freed (e : Trace) : list ptr :=
  flat_map (fun ev => match ev with
                      | (C_SSL_CTX_free c, _) => [c]
                      | _ => []
                      end) e.
Definition bio_freed (e : Trace) : list ptr :=
  flat_map (fun ev => match ev with
                      | (C_BIO_free_all b, _) => [b]
                      | _ => []
                      end) e.

(** Handles and [tls_config_ctx]: it creates at most the context it
    leaves in the struct, frees nothing and leaves the connection
    alone. *)
Definition ctx_handles_post (m : Mem) (o : Outcome Z) : Prop :=
  match o with
  | Returns r m' e =>
      let tc := tlsconn (proxy m) in
      let tc' := tlsconn (proxy m') in
      (TLSConnection.ctx tc = NULL ->
       ctx_created e = held (TLSConnection.ctx tc')) /\
      bio_created e = [] /\ ctx_freed e = [] /\ bio_freed e = [] /\
      TLSConnection.conn tc' = TLSConnection.conn tc /\
      (r = 0 -> TLSConnection.ctx tc' <> NULL)
  | _ => False
  end.

(** Handles and [tls_config_conn]: it creates the connection it leaves
    in the struct, frees nothing and leaves the context alone. *)
Definition conn_handles_post (m : Mem) (o : Outcome Z) : Prop :=
  match o with
  | Returns r m' e =>
      let tc := tlsconn (proxy m) in
      let tc' := tlsconn (proxy m') in
      bio_created e = held (TLSConnection.conn tc') /\
      ctx_created e = [] /\ ctx_freed e = [] /\ bio_freed e = [] /\
      TLSConnection.ctx tc' = TLSConnection.ctx tc /\
      (r = 0 -> TLSConnection.conn tc' <> NULL)
  | _ => False
  end.

(** Handles and [tls_connect]: none created, none freed. *)
Definition connect_handles_post (m : Mem) (o : Outcome Z) : Prop :=
  match o with
  | Returns r m' e =>
      m' = m /\ ctx_created e = [] /\ bio_created e = [] /\
      ctx_freed e = [] /\ bio_freed e = []
  | _ => False
  end.

(** Handles and [setup_tlsconn]: when it returns, the struct holds the
    one context and the one connection created, both non-NULL, and
    nothing was freed; when the process exits, exactly the handles
    created were freed. *)
Definition setup_handles_post (o : Outcome Z) : Prop :=
  match o with
  | Returns _ m' e =>
      let tc' := tlsconn (proxy m') in
      ctx_created e = [TLSConnection.ctx tc'] /\
      bio_created e = [TLSConnection.conn tc'] /\
      TLSConnection.ctx tc' <> NULL /\
      TLSConnection.conn tc' <> NULL /\
      ctx_freed e = [] /\ bio_freed e = []
  | Exits _ _ e =>
      ctx_freed e = ctx_created e /\ bio_freed e = bio_created e
  | Running _ _ => False
  end.

(** The complaints of [proxy_check_options] about the TLS part of the
    command line. *)
Definition no_remote_ip : Event :=
  (C_fprintf STDERR "Remote IP argument (-I) is required.
", 0).
Definition no_remote_port : Event :=
  (C_fprintf STDERR "Remote port number argument (-P) is required.
", 0).

(** What [proxy_check_options] does, by what the ECDH check does on
    the ECDH part [e0] of the struct:
    - the ECDH check ends the process: nothing else happens;
    - it returns and remote host and port are both set: the function
      returns, having printed and logged nothing;
    - it returns and one of them is missing: each missing one is
      complained about, the host first, then the error is logged, the
      session torn down and the process ended with [EXIT_FAILURE]. *)
Definition check_options_post (env : Env) (h : Trace) (m : Mem)
           (o : Outcome unit) : Prop :=
  let tc := tlsconn (proxy m) in
  match ecdh_ret env h C_check_options (ecdhconn (proxy m)) with
  | ExtExit s => o = Exits s m [(C_check_options, 0); (C_exit s, 0)]
  | ExtRet e' =>
      let m1 := set_proxy (mkProxy e' tc) m in
      let complaints :=
        (match TLSConnection.host tc with
         | None => [no_remote_ip] | Some _ => [] end)
        ++ (match TLSConnection.port tc with
            | None => [no_remote_port] | Some _ => [] end) in
      match complaints with
      | [] => o = Returns tt m1 [(C_check_options, 0)]
      | _ =>
          o = Exits EXIT_FAILURE (set_proxy (initial_proxy env) m1)
                ((C_check_options, 0) :: complaints
                   ++ [(C_kmyth_log LOG_ERR
                          "Invalid command-line arguments.", 0)]
                   ++ cleanup_events tc
                   ++ [(C_exit EXIT_FAILURE, 0)])
      end
  end.

(** The argument of the last occurrence of option [c], if any. *)
Fixpoint last_optarg (c : ascii) (opts : list (ascii * string))
  : option string :=
  match opts with
  | [] => None
  | (c', a) :: opts' =>
      match last_optarg c opts' with
      | Some x => Some x
      | None => if Ascii.eqb c' c then Some a else None
      end
  end.

(** The options that name a file, a host or a port, and the member of
    the struct each one sets. *)
Definition path_letters : list ascii :=
  ["r"; "u"; "p"; "I"; "P"; "C"; "R"; "U"]%char.

Definition path_option (c : ascii) (p : TLSProxy) : cstr :=
  if Ascii.eqb c "r" then ECDHServer.private_key_path (ecdhconn p)
  else if Ascii.eqb c "u" then ECDHServer.public_cert_path (ecdhconn p)
  else if Ascii.eqb c "p" then ECDHServer.port (ecdhconn p)
  else if Ascii.eqb c "I" then TLSConnection.host (tlsconn p)
  else if Ascii.eqb c "P" then TLSConnection.port (tlsconn p)
  else if Ascii.eqb c "C" then TLSConnection.ca_path (tlsconn p)
  else if Ascii.eqb c "R" then TLSConnection.client_key_path (tlsconn p)
  else if Ascii.eqb c "U" then TLSConnection.client_cert_path (tlsconn p)
  else None.

(** The members no option sets. *)
Definition same_handles (p p' : TLSProxy) : Prop :=
  TLSConnection.ctx (tlsconn p') = TLSConnection.ctx (tlsconn p) /\
  TLSConnection.conn (tlsconn p') = TLSConnection.conn (tlsconn p) /\
  ECDHServer.socket_fd (ecdhconn p') = ECDHServer.socket_fd (ecdhconn p) /\
  ECDHServer.rest (ecdhconn p') = ECDHServer.rest (ecdhconn p).

(** The struct [p'] is [p] after the options [opts] were stored: each
    member holds the argument of the last occurrence of its option, or
    what it held before if the option does not occur. *)
Definition options_stored (env : Env) (opts : list (ascii * string))
           (p p' : TLSProxy) : Prop :=
  (forall c, In c path_letters ->
     path_option c p'
     = match last_optarg c opts with
       | Some a => Some a
       | None => path_option c p
       end) /\
  ECDHServer.maxconn (ecdhconn p')
  = match last_optarg "m" opts with
    | Some a => to_int (atoi env a)
    | None => ECDHServer.maxconn (ecdhconn p)
    end /\
  same_handles p p'.

(** The calls of the relay loop, by direction. *)
Definition is_poll (e : Event) : bool :=
  match fst e with C_poll _ _ _ _ => true | _ => false end.
Definition is_recv_decrypt (e : Event) : bool :=
  match fst e with C_ecdh_recv_decrypt => true | _ => false end.
Definition is_send_encrypted (e : Event) : bool :=
  match fst e with C_ecdh_encrypt_send _ _ => true | _ => false end.
Definition is_inbound_call (e : Event) : bool :=
  is_recv_decrypt e || is_BIO_write e || is_clear_and_free e.
Definition is_outbound_call (e : Event) : bool :=
  is_BIO_read e || is_send_encrypted e.

(** How many events of [e] satisfy [p]. *)
Definition count (p : Event -> bool) (e : Trace) : nat :=
  List.length (filter p e).

(** No event satisfying [q] comes after one satisfying [p]. *)
Fixpoint none_after (p q : Event -> bool) (e : Trace) : bool :=
  match e with
  | [] => true
  | x :: e' => (if p x then negb (existsb q e') else true)
               && none_after p q e'
  end.

(** One turn of the relay loop: it starts with the one [poll] on the
    two descriptors, makes each call of either direction at most once,
    and is done with the inbound direction before it starts on the
    outbound one. *)
Definition turn_post (l : Locals) (o : Outcome (LoopCtl * Locals)) : Prop :=
  let e := events o in
  (exists x,
     hd_error e = Some (C_poll (pfd0 l) (pfd1 l) NUM_POLL_FDS (-1), x)) /\
  count is_poll e = 1%nat /\
  (count is_recv_decrypt e <= 1)%nat /\
  (count is_BIO_write e <= 1)%nat /\
  (count is_clear_and_free e <= 1)%nat /\
  (count is_BIO_read e <= 1)%nat /\
  (count is_send_encrypted e <= 1)%nat /\
  none_after is_outbound_call is_inbound_call e = true.

(** [BIO_read] keeps to its contract for the relay buffer: asked for
    [ECDH_MAX_MSG_SIZE] bytes, it returns no more than that. *)
Definition bio_read_bounded (env : Env) (ECDH_MAX_MSG_SIZE : Z) : Prop :=
  forall h bio,
    to_int (int_ret env h (C_BIO_read bio ECDH_MAX_MSG_SIZE))
    <= ECDH_MAX_MSG_SIZE.

(** What the relay loop asks for and hands over: a [BIO_read] asks for
    [ECDH_MAX_MSG_SIZE] bytes; the count handed to [ecdh_encrypt_send]
    is positive, at most [ECDH_MAX_MSG_SIZE], and is the number of bytes
    handed over. *)
Definition within_buffer (ECDH_MAX_MSG_SIZE : Z) (e : Event) : Prop :=
  match fst e with
  | C_ecdh_encrypt_send msg n =>
      0 < n <= ECDH_MAX_MSG_SIZE /\ Z.of_nat (List.length msg) = n
  | C_BIO_read _ len => len = ECDH_MAX_MSG_SIZE
  | _ => True
  end.

(** A loop turn keeps the relay buffer at [ECDH_MAX_MSG_SIZE] bytes and
    stays within it. *)
Definition buffer_post (ECDH_MAX_MSG_SIZE : Z)
           (o : Outcome (LoopCtl * Locals)) : Prop :=
  Forall (within_buffer ECDH_MAX_MSG_SIZE) (events o) /\
  match o with
  | Returns (_, l') _ _ =>
      List.length (tls_msg_buf l') = Z.to_nat ECDH_MAX_MSG_SIZE
  | _ => True
  end.

(** The calls into OpenSSL. *)
Definition is_openssl_call (e : Event) : bool :=
  match fst e with
  | C_ERR_get_error | C_ERR_reason_error_string _
  | C_X509_verify_cert_error_string _ | C_TLS_client_method
  | C_SSL_CTX_new _ | C_SSL_CTX_set_min_proto_version _ _
  | C_SSL_CTX_set_verify _ _ | C_SSL_CTX_set_verify_depth _ _
  | C_SSL_CTX_load_verify_locations _ _
  | C_SSL_CTX_set_default_verify_paths _
  | C_SSL_CTX_use_PrivateKey_file _ _ _
  | C_SSL_CTX_use_certificate_file _ _ _ | C_SSL_CTX_free _
  | C_BIO_new_ssl_connect _ | C_BIO_set_conn_hostname _ _
  | C_BIO_set_conn_port _ _ | C_BIO_get_ssl _ | C_BIO_do_connect _
  | C_BIO_get_fd _ | C_BIO_write _ _ _ | C_BIO_read _ _ | C_BIO_free_all _
  | C_SSL_set_tlsext_host_name _ _ | C_SSL_set1_host _ _
  | C_SSL_get_verify_result _ => true
  | _ => false
  end.

(** The calls that create or free a context or a connection. *)
Definition is_handle_call (e : Event) : bool :=
  match fst e with
  | C_SSL_CTX_new _ | C_BIO_new_ssl_connect _
  | C_SSL_CTX_free _ | C_BIO_free_all _ => true
  | _ => false
  end.

(** A computation that never emits an event satisfying [p]. *)
Definition never {A} (p : Event -> bool) (c : M A) : Prop :=
  forall h m, absent p (events (c h m)).

(** A computation that, when it returns, has neither created nor freed
    a handle and has left the two handles of the struct as they were. *)
Definition keeps_handles {A} (c : M A) : Prop :=
  forall h m a m' e,
    c h m = Returns a m' e ->
    filter is_handle_call e = [] /\
    TLSConnection.ctx (tlsconn (proxy m'))
    = TLSConnection.ctx (tlsconn (proxy m)) /\
    TLSConnection.conn (tlsconn (proxy m'))
    = TLSConnection.conn (tlsconn (proxy m)).

Definition is_secure_memset_proxy (e : Event) : bool :=
  match fst e with C_secure_memset_proxy => true | _ => false end.
Definition is_ecdh_cleanup (e : Event) : bool :=
  match fst e with C_cleanup => true | _ => false end.
Definition is_SSL_CTX_free (e : Event) : bool :=
  match fst e with C_SSL_CTX_free _ => true | _ => false end.
Definition is_BIO_free_all (e : Event) : bool :=
  match fst e with C_BIO_free_all _ => true | _ => false end.

(** The descriptors and the connection the relay loop works on. *)
Definition fixed_io (fd0 fd1 : Z) (bio : ptr) (e : Event) : Prop :=
  match fst e with
  | C_poll a b n t => a = fd0 /\ b = fd1 /\ n = NUM_POLL_FDS /\ t = -1
  | C_BIO_read b _ => b = bio
  | C_BIO_write b _ _ => b = bio
  | _ => True
  end.

(** A loop turn works on them and leaves them in place. *)
Definition fixed_io_post (fd0 fd1 : Z) (bio : ptr)
           (o : Outcome (LoopCtl * Locals)) : Prop :=
  Forall (fixed_io fd0 fd1 bio) (events o) /\
  match o with
  | Returns (_, l') m' _ =>
      pfd0 l' = fd0 /\ pfd1 l' = fd1 /\ tls_bio l' = bio /\
      TLSConnection.conn (tlsconn (proxy m')) = bio
  | _ => True
  end.

(** The usage text on stdout, then [exit(EXIT_SUCCESS)]. *)
Definition usage_exit (prog : string) : Trace :=
  [(C_fprintf STDOUT (usage_text prog), 0); (C_exit EXIT_SUCCESS, 0)].

(** The calls of the option loop, by the first option that is not simply
    stored: none without one, the usage exit for [-h], the teardown and
    [exit(EXIT_FAILURE)] for any other. *)
Definition options_loop_events (prog : string)
           (opts : list (ascii * string)) (tc : TLSConnection.t) : Trace :=
  match first_special opts with
  | None => []
  | Some c =>
      if Ascii.eqb c "h" then usage_exit prog
      else cleanup_events tc ++ [(C_exit EXIT_FAILURE, 0)]
  end.

(** The calls of [proxy_get_options]. *)
Definition get_options_events (env : Env) (argv : list string)
           (tc : TLSConnection.t) : Trace :=
  if 1 =? Z.of_nat (List.length argv) then usage_exit (hd ""%string argv)
  else options_loop_events (hd ""%string argv) (getopt_long env argv) tc.

(** What [tls_config_conn] guarantees about the connection target: when
    it returns 0, host and port of the configuration were set on the
    BIO it stored, and both calls returned 1. *)
Definition target_post (m : Mem) (o : Outcome Z) : Prop :=
  match o with
  | Returns r m' e =>
      let tc := tlsconn (proxy m) in
      let bio := TLSConnection.conn (tlsconn (proxy m')) in
      r = 0 ->
      In (C_BIO_set_conn_hostname bio (TLSConnection.host tc), 1) e /\
      In (C_BIO_set_conn_port bio (TLSConnection.port tc), 1) e
  | _ => True
  end.

(** Around every connection attempt of a run from memory [m]: the target
    was set before it, and it is the only attempt. *)
Definition connect_target_post (m : Mem) (o : Outcome Z) : Prop :=
  forall pre bio x post,
    events o = pre ++ (C_BIO_do_connect bio, x) :: post ->
    let tc := tlsconn (proxy m) in
    In (C_BIO_set_conn_hostname bio (TLSConnection.host tc), 1) pre /\
    In (C_BIO_set_conn_port bio (TLSConnection.port tc), 1) pre /\
    absent is_connect pre /\ absent is_connect post.

(** What [proxy_get_options] leaves behind: it returns silently with the
    options stored, or it ends the process without having tried to
    connect. *)
Definition get_options_post (env : Env) (argv : list string) (m : Mem)
           (o : Outcome unit) : Prop :=
  match o with
  | Returns _ m' e =>
      e = [] /\
      exists p',
        m' = set_proxy p' m /\
        options_stored env (getopt_long env argv) (proxy m) p'
  | Exits _ _ e => absent is_connect e
  | Running _ _ => False
  end.

(** What [setup_ecdhconn] leaves behind for the TLS setup. *)
Definition ecdh_setup_post (m : Mem) (o : Outcome Z) : Prop :=
  handshake_post o /\
  absent is_connect (events o) /\
  match o with
  | Returns _ m' _ => tlsconn (proxy m') = tlsconn (proxy m)
  | _ => True
  end.

(** The calls [main] makes before the session is set up. *)
Definition startup_calls : list Call :=
  [C_secure_memset_proxy; C_init;
   C_set_applog_severity_threshold DEMO_LOG_LEVEL; C_check_options].

(** Around every connection attempt of a run of [main] on the command
    line [argv]: the command line named a host and a port, these were
    set on the BIO that connects, and the startup and the ECDH handshake
    were done. *)
Definition main_connect_post (env : Env) (argv : list string)
           (o : Outcome Z) : Prop :=
  forall pre bio x post,
    events o = pre ++ (C_BIO_do_connect bio, x) :: post ->
    exists host port,
      last_optarg "I" (getopt_long env argv) = Some host /\
      last_optarg "P" (getopt_long env argv) = Some port /\
      In (C_BIO_set_conn_hostname bio (Some host), 1) pre /\
      In (C_BIO_set_conn_port bio (Some port), 1) pre /\
      absent is_connect pre /\ absent is_connect post /\
      exists tail,
        map fst pre = startup_calls ++ handshake_calls ++ tail.

(** ** Properties *)

(** *** The monad *)

Lemma prepend_nil {A} (o : Outcome A) : prepend [] o = o.
Proof. destruct o; reflexivity. Qed.

Lemma prepend_prepend {A} e1 e2 (o : Outcome A) :
  prepend e1 (prepend e2 o) = prepend (e1 ++ e2) o.
Proof. destruct o; simpl; rewrite app_assoc; reflexivity. Qed.

Lemma bind_assoc {A B C} (c : M A) (k1 : A -> M B) (k2 : B -> M C) h m :
  bind (bind c k1) k2 h m = bind c (fun a => bind (k1 a) k2) h m.
Proof.
  unfold bind. destruct (c h m) as [a m1 e1|s m1 e1|m1 e1]; simpl; auto.
  destruct (k1 a (h ++ e1) m1) as [b m2 e2|s m2 e2|m2 e2]; simpl; auto.
  rewrite prepend_prepend, app_assoc. reflexivity.
Qed.

Lemma bind_ret_r {A} (c : M A) h m : bind c ret h m = c h m.
Proof.
  unfold bind, ret. destruct (c h m); simpl; rewrite ?app_nil_r; reflexivity.
Qed.

(** Stepping through a sequence: the rest runs in some later history. *)
Lemma after_bind {A B} evs (c : M A) (k : A -> M B) h m
      (Q : Outcome B -> Prop) :
  after evs (c h m)
    (fun o => match o with
              | Returns a m1 e1 => forall h', after e1 (k a h' m1) Q
              | Exits s m1 e1 => Q (Exits s m1 e1)
              | Running m1 e1 => Q (Running m1 e1)
              end) ->
  after evs (bind c k h m) Q.
Proof.
  unfold after, bind. destruct (c h m) as [a m1 e1|s m1 e1|m1 e1]; simpl; auto.
  intros H. rewrite prepend_prepend. apply H.
Qed.

Lemma after_start {A} (o : Outcome A) (Q : Outcome A -> Prop) :
  after [] o Q -> Q o.
Proof. unfold after. rewrite prepend_nil. auto. Qed.

Lemma after_assoc {A B C} evs (c : M A) (k1 : A -> M B) (k2 : B -> M C)
      h m Q :
  after evs (bind c (fun a => bind (k1 a) k2) h m) Q ->
  after evs (bind (bind c k1) k2 h m) Q.
Proof. rewrite bind_assoc. auto. Qed.

Lemma after_last {A} evs (c : M A) h m Q :
  after evs (bind c ret h m) Q -> after evs (c h m) Q.
Proof. rewrite bind_ret_r. auto. Qed.

Lemma after_ret {A} evs (a : A) h m (Q : Outcome A -> Prop) :
  Q (Returns a m evs) -> after evs (ret a h m) Q.
Proof. unfold after, ret. simpl. rewrite app_nil_r. auto. Qed.

Lemma after_ret_bind {A B} evs (a : A) (k : A -> M B) h m Q :
  (forall h', after evs (k a h' m) Q) ->
  after evs (bind (ret a) k h m) Q.
Proof.
  intros H. apply after_bind. unfold after, ret. simpl.
  rewrite app_nil_r. intros. apply H.
Qed.

Lemma after_get_proxy {B} evs (k : TLSProxy -> M B) h m Q :
  (forall h', after evs (k (proxy m) h' m) Q) ->
  after evs (bind get_proxy k h m) Q.
Proof.
  intros H. apply after_bind. unfold after, get_proxy. simpl.
  rewrite app_nil_r. intros. apply H.
Qed.

Lemma after_modify_tlsconn {B} evs f (k : unit -> M B) h m Q :
  (forall h',
     after evs
       (k tt h' (set_proxy (mkProxy (ecdhconn (proxy m))
                                    (f (tlsconn (proxy m)))) m)) Q) ->
  after evs (bind (modify_tlsconn f) k h m) Q.
Proof.
  intros H. apply after_bind.
  unfold after, modify_tlsconn, bind, get_proxy, put_proxy. simpl.
  rewrite app_nil_r. intros. apply H.
Qed.

Lemma after_get_heap {B} evs (k : Heap -> M B) h m Q :
  (forall h', after evs (k (heap m) h' m) Q) ->
  after evs (bind get_heap k h m) Q.
Proof.
  intros H. apply after_bind. unfold after, get_heap. simpl.
  rewrite app_nil_r. intros. apply H.
Qed.

Lemma after_put_heap {B} evs hp (k : unit -> M B) h m Q :
  (forall h', after evs (k tt h' (set_heap hp m)) Q) ->
  after evs (bind (put_heap hp) k h m) Q.
Proof.
  intros H. apply after_bind. unfold after, put_heap. simpl.
  rewrite app_nil_r. intros. apply H.
Qed.

Lemma after_call_void {B} evs c (k : unit -> M B) h m Q :
  (forall h', after (evs ++ [(c, 0)]) (k tt h' m) Q) ->
  after evs (bind (call_void c) k h m) Q.
Proof.
  intros H. apply after_bind. unfold after, call_void, emit. simpl.
  intros. apply H.
Qed.

Section Properties.

Variable env : Env.
Variable ECDH_MAX_MSG_SIZE : Z.

Lemma after_call {B} evs c (k : Z -> M B) h m Q :
  (forall r h', after (evs ++ [(c, r)]) (k r h' m) Q) ->
  after evs (bind (call env c) k h m) Q.
Proof.
  intros H. apply after_bind. unfold after, call. simpl. intros. apply H.
Qed.

Lemma after_call_ecdh {B} evs c (k : unit -> M B) h m Q :
  (forall e' h',
     after (evs ++ [(c, 0)])
           (k tt h' (set_proxy (mkProxy e' (tlsconn (proxy m))) m)) Q) ->
  (forall s,
     (exists h0 e0, ecdh_ret env h0 c e0 = ExtExit s) ->
     Q (Exits s m (evs ++ [(c, 0); (C_exit s, 0)]))) ->
  after evs (bind (call_ecdh env c) k h m) Q.
Proof.
  intros H1 H2. apply after_bind. unfold after, call_ecdh.
  destruct (ecdh_ret env h c (ecdhconn (proxy m))) eqn:E; simpl.
  - intros. apply H1.
  - apply H2. eauto.
Qed.

Lemma after_log_openssl_error {A} evs err label (k : unit -> M A) h m Q :
  (forall str h',
     after (evs ++ [(C_ERR_reason_error_string err, str);
                    (C_kmyth_log LOG_ERR (openssl_error_text str label), 0)])
           (k tt h' m) Q) ->
  after evs (bind (log_openssl_error env err label) k h m) Q.
Proof.
  intros H. unfold log_openssl_error. apply after_assoc, after_call.
  intros str h'. generalize (H str). unfold openssl_error_text.
  destruct (negb (str =? NULL)); intros H'; unfold kmyth_log;
    apply after_call_void; intros h2; rewrite <- app_assoc; apply H'.
Qed.

(** *** Lifecycle *)

Lemma proxy_init_eq h m :
  proxy_init env h m =
  Returns tt (set_proxy (initial_proxy env) m)
          [(C_secure_memset_proxy, 0); (C_init, 0)].
Proof. reflexivity. Qed.

Lemma tls_cleanup_eq h m :
  tls_cleanup h m = Returns tt m (tls_cleanup_events (tlsconn (proxy m))).
Proof.
  unfold tls_cleanup, tls_cleanup_events, bind, get_proxy; simpl.
  destruct (TLSConnection.conn (tlsconn (proxy m)) =? NULL);
    destruct (TLSConnection.ctx (tlsconn (proxy m)) =? NULL); reflexivity.
Qed.

Lemma cleanup_eq h m :
  cleanup env h m =
  Returns tt (set_proxy (mkProxy (ecdh_cleanup env (ecdhconn (proxy m)))
                                 (tlsconn (proxy m))) m)
          [(C_cleanup, 0)].
Proof. reflexivity. Qed.

Lemma proxy_cleanup_eq h m :
  proxy_cleanup env h m =
  Returns tt (set_proxy (initial_proxy env) m)
          (cleanup_events (tlsconn (proxy m))).
Proof.
  unfold proxy_cleanup, bind.
  rewrite cleanup_eq, tls_cleanup_eq, proxy_init_eq.
  unfold cleanup_events, prepend, set_proxy. cbn [proxy heap tlsconn app].
  reflexivity.
Qed.

Lemma proxy_error_eq A h m :
  @proxy_error env A h m =
  Exits EXIT_FAILURE (set_proxy (initial_proxy env) m)
        (cleanup_events (tlsconn (proxy m)) ++ [(C_exit EXIT_FAILURE, 0)]).
Proof.
  unfold proxy_error, bind. rewrite proxy_cleanup_eq. reflexivity.
Qed.

(** *** Symbolic execution of straight-line code *)

Ltac step :=
  cbv beta;
  lazymatch goal with
  | |- after _ (bind (bind _ _) _ _ _) _ => apply after_assoc
  | |- after _ (bind (call _ _) _ _ _) _ => apply after_call; intros ? ?
  | |- after _ (bind (call_void _) _ _ _) _ =>
      apply after_call_void; intros ?
  | |- after _ (bind (kmyth_log _ _) _ _ _) _ =>
      unfold kmyth_log at 1; apply after_call_void; intros ?
  | |- after _ (bind (log_openssl_error _ _ _) _ _ _) _ =>
      apply after_log_openssl_error; intros ? ?
  | |- after _ (bind (ret _) _ _ _) _ => apply after_ret_bind; intros ?
  | |- after _ (bind get_proxy _ _ _) _ => apply after_get_proxy; intros ?
  | |- after _ (bind (modify_tlsconn _) _ _ _) _ =>
      apply after_modify_tlsconn; intros ?
  | |- after _ (bind get_heap _ _ _) _ => apply after_get_heap; intros ?
  | |- after _ (bind (put_heap _) _ _ _) _ => apply after_put_heap; intros ?
  | |- after _ (ret _ _ _) _ => apply after_ret
  | |- after _ (bind (if ?c then _ else _) _ _ _) _ => destruct c eqn:?
  | |- after _ ((if ?c then _ else _) _ _) _ => destruct c eqn:?
  | |- after _ (bind (match ?c with Some _ => _ | None => _ end) _ _ _) _ =>
      destruct c eqn:?
  | |- after _ (bind _ _ _ _) _ => fail
  | |- after _ (_ _ _) _ => apply after_last
  end.

(** Membership in an explicit list of events. *)
Ltac in_events :=
  solve [simpl; repeat (first [left; reflexivity | right])].

(** A call that returned 1, as the code has just tested. *)
Ltac returned_1 :=
  repeat match goal with
         | H : negb (1 =? ?r) = false |- _ =>
             apply negb_false_iff, Z.eqb_eq in H; subst r
         end.

Ltac leaf :=
  returned_1;
  cbn [app ctx_post conn_post connect_post proxy heap tlsconn ecdhconn
       set_proxy TLSConnection.set_ctx TLSConnection.set_conn
       TLSConnection.host TLSConnection.port TLSConnection.ca_path
       TLSConnection.client_key_path TLSConnection.client_cert_path
       TLSConnection.ctx TLSConnection.conn] in *;
  unfold same_config, quiet, ctx_configured, conn_configured, absent;
  cbn [TLSConnection.host TLSConnection.port TLSConnection.ca_path
       TLSConnection.client_key_path TLSConnection.client_cert_path
       TLSConnection.ctx TLSConnection.conn];
  repeat match goal with
         | |- _ /\ _ => split
         | |- forall _, _ => intro; try discriminate
         | |- exists _, _ => eexists
         end;
  try reflexivity; try congruence; try lia;
  repeat match goal with
         | H1 : ?x = Some ?a, H2 : ?x = Some ?b |- _ =>
             rewrite H1 in H2; injection H2 as H2; subst b
         end;
  try in_events.

(** *** TLS client construction *)

Lemma tls_config_ctx_spec h m : ctx_post m (tls_config_ctx env h m).
Proof.
  apply after_start. unfold tls_config_ctx. repeat step; leaf.
Qed.

Lemma tls_config_conn_spec h m : conn_post m (tls_config_conn env h m).
Proof.
  apply after_start. unfold tls_config_conn. repeat step; leaf.
Qed.

Lemma tls_connect_spec h m : connect_post m (tls_connect env h m).
Proof.
  apply after_start. unfold tls_connect, tls_get_verify_error.
  repeat step; leaf.
Qed.

(** The teardown neither connects nor loads credentials. *)
Lemma cleanup_events_quiet tc s :
  absent is_connect (cleanup_events tc ++ [(C_exit s, 0)]) /\
  absent is_use_PrivateKey_file (cleanup_events tc ++ [(C_exit s, 0)]) /\
  absent is_use_certificate_file (cleanup_events tc ++ [(C_exit s, 0)]).
Proof.
  unfold cleanup_events, tls_cleanup_events, absent.
  destruct (negb (TLSConnection.conn tc =? NULL));
    destruct (negb (TLSConnection.ctx tc =? NULL)); repeat split.
Qed.

Lemma absent_app p e1 e2 :
  absent p (e1 ++ e2) <-> absent p e1 /\ absent p e2.
Proof. unfold absent. rewrite existsb_app. apply orb_false_iff. Qed.

Lemma absent_no_split p l pre y post :
  l = pre ++ y :: post -> p y = true -> absent p l -> False.
Proof.
  intros -> Hy H. apply absent_app in H. destruct H as [_ H].
  unfold absent in H. simpl in H. rewrite Hy in H. discriminate.
Qed.

(** If the only event of its kind sits between [A] and [B], any split of
    the trace at an event of that kind is this one. *)
Lemma split_at_only p A x B pre y post :
  absent p A -> absent p B -> p y = true ->
  A ++ x :: B = pre ++ y :: post ->
  pre = A /\ y = x.
Proof.
  revert pre. induction A as [|a A IH]; intros pre HA HB Hy E.
  - destruct pre as [|q pre]; simpl in E.
    + injection E as E _. auto.
    + injection E as _ E.
      exfalso. eapply absent_no_split; eauto.
  - destruct pre as [|q pre]; simpl in E.
    + injection E as E _. subst a. unfold absent in HA. simpl in HA.
      rewrite Hy in HA. discriminate.
    + injection E as E1 E2. subst q.
      unfold absent in HA. simpl in HA. apply orb_false_iff in HA.
      destruct HA as [_ HA].
      destruct (IH pre HA HB Hy E2) as [-> ->]. auto.
Qed.

Lemma after_proxy_error {A B} evs (k : A -> M B) h m Q :
  Q (Exits EXIT_FAILURE (set_proxy (initial_proxy env) m)
           (evs ++ cleanup_events (tlsconn (proxy m))
                ++ [(C_exit EXIT_FAILURE, 0)])) ->
  after evs (bind (@proxy_error env A) k h m) Q.
Proof.
  intros H. apply after_bind. unfold after. rewrite proxy_error_eq. exact H.
Qed.

Lemma after_bind_spec {A B} (P : Outcome A -> Prop) evs (c : M A)
      (k : A -> M B) h m Q :
  P (c h m) ->
  (forall o, P o ->
     match o with
     | Returns a m1 e1 => forall h', after (evs ++ e1) (k a h' m1) Q
     | Exits s m1 e1 => Q (Exits s m1 (evs ++ e1))
     | Running m1 e1 => Q (Running m1 (evs ++ e1))
     end) ->
  after evs (bind c k h m) Q.
Proof.
  intros HP H. apply after_bind. unfold after at 1.
  specialize (H _ HP). destruct (c h m); simpl; auto.
Qed.

Lemma ctx_configured_mono tc tc' c e1 e2 e3 :
  same_config tc tc' ->
  ctx_configured tc' c e2 -> ctx_configured tc c (e1 ++ e2 ++ e3).
Proof.
  intros (_ & _ & _ & Hk & Hc) (H1 & H2 & H3 & H4 & H5).
  rewrite Hk in H4. rewrite Hc in H5.
  unfold ctx_configured.
  repeat split; intros; apply in_or_app; right; apply in_or_app; left; auto.
Qed.

Lemma conn_configured_mono tc tc' c bio e1 e2 e3 :
  same_config tc tc' ->
  conn_configured tc' c bio e2 -> conn_configured tc c bio (e1 ++ e2 ++ e3).
Proof.
  intros (Hh & _) (H1 & ssl & H2 & H3 & H4). rewrite Hh in H3, H4.
  split; [|exists ssl; repeat split];
    apply in_or_app; right; apply in_or_app; left; auto.
Qed.

Lemma same_config_refl tc : same_config tc tc.
Proof. repeat split. Qed.

Ltac quiet_trace :=
  rewrite <- ?app_assoc; auto; repeat (apply absent_app; split; auto).

Lemma setup_tlsconn_spec h m : setup_post env m (setup_tlsconn env h m).
Proof.
  apply after_start. unfold setup_tlsconn.
  apply (after_bind_spec (ctx_post m) _ _ _ _ _ _ (tls_config_ctx_spec h m)).
  intros [r1 m1 e1| |] P1; try contradiction. intros h1.
  destruct P1 as (Hh1 & He1 & Hc1 & Hb1 & (Qa1 & Qk1 & Qc1) & F1 & C1).
  pose proof (cleanup_events_quiet (tlsconn (proxy m1)) EXIT_FAILURE)
    as (Ka1 & Kk1 & Kc1).
  cbn [app]. step.
  { (* tls_config_ctx failed *)
    apply after_proxy_error. unfold setup_post.
    cbn [events set_proxy proxy heap].
    repeat split; auto.
    - eauto.
    - intros K. quiet_trace.
    - intros K. quiet_trace.
    - exfalso. apply (absent_no_split is_connect _ _ _ _ H eq_refl).
      quiet_trace.
    - exfalso. apply (absent_no_split is_connect _ _ _ _ H eq_refl).
      quiet_trace. }
  apply negb_false_iff, Z.eqb_eq in Heqb. subst r1.
  specialize (C1 eq_refl). specialize (F1 eq_refl).
  step. cbv beta.
  apply (after_bind_spec (conn_post m1) _ _ _ _ _ _
                         (tls_config_conn_spec _ m1)).
  intros [r2 m2 e2| |] P2; try contradiction. intros h2.
  destruct P2 as (Hh2 & He2 & Hc2 & Hx2 & (Qa2 & _ & _) & Qk2 & Qc2 & F2 & C2).
  pose proof (cleanup_events_quiet (tlsconn (proxy m2)) EXIT_FAILURE)
    as (Ka2 & Kk2 & Kc2).
  step.
  { (* tls_config_conn failed *)
    apply after_proxy_error. unfold setup_post.
    cbn [events set_proxy proxy heap].
    repeat split; try congruence.
    - eauto.
    - intros K. quiet_trace.
    - intros K. quiet_trace.
    - exfalso. apply (absent_no_split is_connect _ _ _ _ H eq_refl).
      quiet_trace.
    - exfalso. apply (absent_no_split is_connect _ _ _ _ H eq_refl).
      quiet_trace. }
  apply negb_false_iff, Z.eqb_eq in Heqb. subst r2. specialize (C2 eq_refl).
  step. cbv beta.
  apply (after_bind_spec (connect_post m2) _ _ _ _ _ _
                         (tls_connect_spec _ m2)).
  intros [r3 m3 e3| |] P3; try contradiction. intros h3.
  destruct P3 as (-> & x3 & e3' & -> & Qa3 & Qk3 & Qc3 & C3).
  assert (Hcfg : forall pre bio x post tail,
             (e1 ++ e2) ++
               ((C_BIO_do_connect (TLSConnection.conn (tlsconn (proxy m2))), x3)
                  :: e3') ++ tail
             = pre ++ (C_BIO_do_connect bio, x) :: post ->
             absent is_connect tail ->
             absent is_failed_floor pre /\
             exists c,
               ctx_configured (tlsconn (proxy m)) c pre /\
               conn_configured (tlsconn (proxy m)) c bio pre).
  { intros pre bio x post tail E Htail. cbn [app] in E.
    apply split_at_only with (p := is_connect) in E;
      [|quiet_trace..|reflexivity].
    destruct E as (-> & E). injection E as E _. subst bio.
    split; [quiet_trace|].
    exists (TLSConnection.ctx (tlsconn (proxy m1))). split.
    - rewrite <- (app_nil_l (e1 ++ e2)).
      apply ctx_configured_mono with (tc' := tlsconn (proxy m)); auto.
      apply same_config_refl.
    - rewrite <- (app_nil_r (e1 ++ e2)), <- app_assoc.
      apply conn_configured_mono with (tc' := tlsconn (proxy m1)); auto. }
  step.
  { (* tls_connect failed *)
    apply after_proxy_error. unfold setup_post.
    cbn [events set_proxy proxy heap].
    split; [repeat split; try congruence; eauto|].
    split; [intros K; quiet_trace|].
    split; [intros K; quiet_trace|].
    intros pre bio x post E. rewrite <- app_assoc in E.
    apply (Hcfg _ _ _ _ _ E). assumption. }
  step. step. unfold setup_post. cbn [events].
  apply negb_false_iff, Z.eqb_eq in Heqb. subst r3. specialize (C3 eq_refl).
  subst x3.
  split; [repeat split; try congruence; eauto|].
  split; [intros K; quiet_trace|].
  split; [intros K; quiet_trace|].
  intros pre bio x post E.
  apply (Hcfg pre bio x post []); [|reflexivity].
  rewrite app_nil_r. exact E.
Qed.

(** *** Relay loop *)





Lemma blit_length data buf : List.length (blit data buf) = List.length buf.
Proof.
  unfold blit. rewrite length_firstn, length_app, length_skipn. lia.
Qed.

Lemma after_BIO_read {B} evs bio buf len (k : Z * bytes -> M B) h m Q :
  (forall n data h',
     after (evs ++ [(C_BIO_read bio len, n)])
           (k (n, if 0 <? n then blit (firstn (Z.to_nat n) data) buf
                  else buf) h' m) Q) ->
  after evs (bind (BIO_read env bio buf len) k h m) Q.
Proof.
  intros H. apply after_bind. unfold after, BIO_read. simpl. intros.
  apply H.
Qed.

(** Sequencing, with the history kept as it is. *)
Lemma bind_get_proxy {B} (k : TLSProxy -> M B) h m :
  bind get_proxy k h m = k (proxy m) h m.
Proof.
  unfold bind, get_proxy. rewrite app_nil_r, prepend_nil. reflexivity.
Qed.

Lemma bind_ret {A B} (a : A) (k : A -> M B) h m :
  bind (ret a) k h m = k a h m.
Proof. unfold bind, ret. rewrite app_nil_r, prepend_nil. reflexivity. Qed.

Lemma bind_kmyth_log {B} level msg (k : unit -> M B) h m :
  bind (kmyth_log level msg) k h m
  = prepend [(C_kmyth_log level msg, 0)]
            (k tt (h ++ [(C_kmyth_log level msg, 0)]) m).
Proof. reflexivity. Qed.

Lemma bind_proxy_error {A B} (k : A -> M B) h m :
  bind (@proxy_error env A) k h m
  = Exits EXIT_FAILURE (set_proxy (initial_proxy env) m)
          (cleanup_events (tlsconn (proxy m)) ++ [(C_exit EXIT_FAILURE, 0)]).
Proof. unfold bind. rewrite proxy_error_eq. reflexivity. Qed.

Lemma bind_BIO_read {B} bio buf len (k : Z * bytes -> M B) h m :
  bind (BIO_read env bio buf len) k h m
  = let n := to_int (int_ret env h (C_BIO_read bio len)) in
    prepend [(C_BIO_read bio len, n)]
            (k (n, if 0 <? n
                   then blit (firstn (Z.to_nat n) (read_data env h)) buf
                   else buf)
               (h ++ [(C_BIO_read bio len, n)]) m).
Proof. reflexivity. Qed.

Lemma firstn_blit n data buf :
  (n <= List.length buf)%nat -> (n <= List.length data)%nat ->
  firstn n (blit (firstn n data) buf) = firstn n data.
Proof.
  intros Hb Hd. unfold blit.
  rewrite firstn_firstn, Nat.min_l by exact Hb.
  rewrite firstn_app, length_firstn, Nat.min_l by exact Hd.
  rewrite Nat.sub_diag, firstn_O, app_nil_r.
  rewrite firstn_firstn, Nat.min_id. reflexivity.
Qed.

Lemma bind_call_ecdh {B} c (k : unit -> M B) h m :
  bind (call_ecdh env c) k h m
  = match ecdh_ret env h c (ecdhconn (proxy m)) with
    | ExtRet e' =>
        prepend [(c, 0)]
                (k tt (h ++ [(c, 0)])
                   (set_proxy (mkProxy e' (tlsconn (proxy m))) m))
    | ExtExit s => Exits s m [(c, 0); (C_exit s, 0)]
    end.
Proof.
  unfold bind, call_ecdh.
  destruct (ecdh_ret env h c (ecdhconn (proxy m))); reflexivity.
Qed.

Lemma relay_outbound_outcome h m l revents :
  Z.land revents POLLIN <> 0 ->
  outbound_post env ECDH_MAX_MSG_SIZE l h m
                (relay_outbound env ECDH_MAX_MSG_SIZE revents l h m).
Proof.
  intros Hr. unfold relay_outbound.
  apply Z.eqb_neq in Hr. rewrite Hr. cbn [negb].
  rewrite bind_get_proxy, bind_BIO_read. cbv beta iota zeta.
  unfold outbound_post, tls_read_buffer, tls_read_result,
    outbound_received, outbound_send, read_failure, tls_read. cbv zeta.
  set (rd := C_BIO_read (TLSConnection.conn (tlsconn (proxy m)))
                        ECDH_MAX_MSG_SIZE).
  set (n := to_int (int_ret env h rd)).
  set (buf := if 0 <? n
              then blit (firstn (Z.to_nat n) (read_data env h))
                        (tls_msg_buf l)
              else tls_msg_buf l).
  clearbody n.
  destruct (Z.eqb_spec n 0) as [->|Hn0].
  - (* 0: the peer has closed *)
    subst buf. cbn [Z.ltb Z.compare]. rewrite bind_kmyth_log.
    split; [reflexivity|]. repeat split; intros; lia.
  - destruct (Z.ltb_spec n 0) as [Hneg|Hpos].
    + (* a read error *)
      rewrite bind_assoc, bind_kmyth_log, bind_proxy_error.
      split; [intros; lia|]. split; [reflexivity|].
      split; intros; lia.
    + (* bytes to hand over *)
      rewrite bind_ret, bind_kmyth_log. unfold ecdh_encrypt_send.
      rewrite bind_call_ecdh. rewrite <- app_assoc. cbn [app].
      split; [intros; lia|]. split; [intros; lia|].
      destruct (ecdh_ret env _ _ _) as [e'|s]; cbn [prepend app ret].
      all: split; [reflexivity|]; intros [_ Hfit] Hdata; cbn [events].
      all: right; right; left; f_equal; f_equal.
      all: subst buf; destruct (Z.ltb_spec 0 n) as [_|]; [|lia].
      all: apply firstn_blit; [lia | exact Hdata].
Qed.

Lemma proxy_loop_turn fuel l0 h0 m0 r0 r1 l m e1 :
  poll_revents env h0 = (r0, r1) ->
  relay_inbound env r0 l0 (h0 ++ [polled env l0 h0]) m0 = Returns l m e1 ->
  proxy_loop env ECDH_MAX_MSG_SIZE (S fuel) l0 h0 m0
  = prepend (polled env l0 h0 :: e1)
      (match relay_outbound env ECDH_MAX_MSG_SIZE r1 l
               ((h0 ++ [polled env l0 h0]) ++ e1) m with
       | Returns (Break, l') m' e => Returns l' m' e
       | Returns (Continue, l') m' e =>
           prepend e (proxy_loop env ECDH_MAX_MSG_SIZE fuel l'
                        (((h0 ++ [polled env l0 h0]) ++ e1) ++ e) m')
       | Exits s m' e => Exits s m' e
       | Running m' e => Running m' e
       end).
Proof.
  intros Hp Hin. cbn [proxy_loop]. unfold proxy_iter, polled in *.
  unfold bind, poll. cbv beta iota zeta. rewrite Hp. cbn [fst snd].
  match goal with
  | |- context [relay_inbound env r0 l0 ?hh m0] =>
      replace (relay_inbound env r0 l0 hh m0) with (Returns l m e1)
        by (symmetry; exact Hin)
  end.
  destruct (relay_outbound env ECDH_MAX_MSG_SIZE r1 l _ m)
    as [[[|] l'] m' e|s m' e|m' e]; cbn [prepend app].
  - rewrite prepend_prepend, <- !app_assoc. reflexivity.
  - unfold ret. cbn [prepend]. rewrite app_nil_r. reflexivity.
  - reflexivity.
  - reflexivity.
Qed.


(** C3: a turn of the relay loop in which [poll] reports the TLS side
    readable, once the inbound half has returned.  The proxy asks
    [BIO_read] for [ECDH_MAX_MSG_SIZE] bytes, into the relay buffer.  On
    the result 0 it logs that the connection is closed and leaves the
    loop: [proxy_loop] returns.  On a negative result it logs the error,
    tears the session down and exits with [EXIT_FAILURE].  On a positive
    result [n] it hands the first [n] bytes of the buffer, which are the
    bytes just read, to [ecdh_encrypt_send] with the count [n], and the
    loop goes into its next turn unless that call ended the process. *)
Theorem relay_outbound_cases fuel l0 h0 m0 r0 r1 l m e1 :
  poll_revents env h0 = (r0, r1) ->
  Z.land r1 POLLIN <> 0 ->
  relay_inbound env r0 l0 (h0 ++ [polled env l0 h0]) m0 = Returns l m e1 ->
  (forall l' h' m',
     outbound_post env ECDH_MAX_MSG_SIZE l' h' m'
                   (relay_outbound env ECDH_MAX_MSG_SIZE r1 l' h' m')) /\
  outbound_loop_post env ECDH_MAX_MSG_SIZE fuel l
    ((h0 ++ [polled env l0 h0]) ++ e1) m (polled env l0 h0 :: e1)
    (proxy_loop env ECDH_MAX_MSG_SIZE (S fuel) l0 h0 m0).
Proof.
  intros Hp Hr Hin.
  split; [intros l' h' m'; apply relay_outbound_outcome; exact Hr|].
  rewrite (proxy_loop_turn fuel _ _ _ _ _ _ _ _ Hp Hin).
  destruct (relay_outbound_outcome ((h0 ++ [polled env l0 h0]) ++ e1) m l
              r1 Hr) as (Hzero & Hneg & Hpos & _).
  unfold outbound_loop_post. cbv zeta. split; [|split].
  - intros E. rewrite (Hzero E). reflexivity.
  - intros E. rewrite (Hneg E). reflexivity.
  - intros E. specialize (Hpos E).
    destruct (ecdh_ret env _ _ _) as [e'|s]; rewrite Hpos; cbn [prepend].
    + rewrite prepend_prepend. reflexivity.
    + reflexivity.
Qed.




(** *** Exit statuses *)


























(** *** Command line *)

Lemma option_case_stores prog c a h m :
  stores c = true ->
  exists p',
    option_case env prog c a h m = Returns tt (set_proxy p' m) [] /\
    TLSConnection.host (tlsconn p')
    = (if Ascii.eqb c "I" then Some a
       else TLSConnection.host (tlsconn (proxy m))) /\
    TLSConnection.port (tlsconn p')
    = (if Ascii.eqb c "P" then Some a
       else TLSConnection.port (tlsconn (proxy m))).
Proof.
  unfold stores, option_case. cbn [existsb].
  destruct (Ascii.eqb c "r") eqn:Er;
    [apply Ascii.eqb_eq in Er; subst c; intros _; eexists;
     split; [reflexivity | split; reflexivity]|].
  destruct (Ascii.eqb c "u") eqn:Eu;
    [apply Ascii.eqb_eq in Eu; subst c; intros _; eexists;
     split; [reflexivity | split; reflexivity]|].
  destruct (Ascii.eqb c "p") eqn:Ep;
    [apply Ascii.eqb_eq in Ep; subst c; intros _; eexists;
     split; [reflexivity | split; reflexivity]|].
  destruct (Ascii.eqb c "I") eqn:EI;
    [apply Ascii.eqb_eq in EI; subst c; intros _; eexists;
     split; [reflexivity | split; reflexivity]|].
  destruct (Ascii.eqb c "P") eqn:EP;
    [apply Ascii.eqb_eq in EP; subst c; intros _; eexists;
     split; [reflexivity | split; reflexivity]|].
  destruct (Ascii.eqb c "C") eqn:EC;
    [apply Ascii.eqb_eq in EC; subst c; intros _; eexists;
     split; [reflexivity | split; reflexivity]|].
  destruct (Ascii.eqb c "R") eqn:ER;
    [apply Ascii.eqb_eq in ER; subst c; intros _; eexists;
     split; [reflexivity | split; reflexivity]|].
  destruct (Ascii.eqb c "U") eqn:EU;
    [apply Ascii.eqb_eq in EU; subst c; intros _; eexists;
     split; [reflexivity | split; reflexivity]|].
  destruct (Ascii.eqb c "m") eqn:Em;
    [apply Ascii.eqb_eq in Em; subst c; intros _; eexists;
     split; [reflexivity | split; reflexivity]|].
  discriminate.
Qed.

Lemma option_case_special prog c a h m :
  stores c = false ->
  exists m' e,
    option_case env prog c a h m
    = Exits (if Ascii.eqb c "h" then EXIT_SUCCESS else EXIT_FAILURE) m' e.
Proof.
  unfold stores, option_case. cbn [existsb]. intros H.
  repeat (apply orb_false_iff in H; destruct H as [HE H]; rewrite HE;
          clear HE).
  destruct (Ascii.eqb c "h").
  - do 2 eexists. reflexivity.
  - rewrite proxy_error_eq. do 2 eexists. reflexivity.
Qed.

(** The option loop: it stops at the first option that is not simply
    stored, with the usage text and status 0 for [-h], with
    [proxy_error] for any other; if there is none, the remote host is set
    exactly if [-I] was given, the remote port exactly if [-P] was. *)
Lemma options_loop_cases prog opts :
  forall h m,
    match first_special opts with
    | Some c =>
        exists m' e,
          options_loop env prog opts h m
          = Exits (if Ascii.eqb c "h" then EXIT_SUCCESS else EXIT_FAILURE)
                  m' e
    | None =>
        exists p',
          options_loop env prog opts h m = Returns tt (set_proxy p' m) [] /\
          (TLSConnection.host (tlsconn p') = None <->
           has_option "I" opts = false /\
           TLSConnection.host (tlsconn (proxy m)) = None) /\
          (TLSConnection.port (tlsconn p') = None <->
           has_option "P" opts = false /\
           TLSConnection.port (tlsconn (proxy m)) = None)
    end.
Proof.
  induction opts as [|[c a] opts IH]; intros h m; cbn [first_special].
  - exists (proxy m). destruct m as [p hp]. cbn.
    split; [reflexivity|]. split; tauto.
  - cbn [options_loop]. unfold bind.
    destruct (stores c) eqn:Hs.
    + destruct (option_case_stores prog c a h m Hs) as (p1 & -> & Hh & Hp).
      specialize (IH (h ++ []) (set_proxy p1 m)).
      destruct (first_special opts) as [c'|].
      * destruct IH as (m' & e & ->). do 2 eexists. reflexivity.
      * destruct IH as (p' & -> & Hh' & Hp'). exists p'.
        split; [reflexivity|]. unfold has_option in *. cbn [existsb fst].
        cbn [set_proxy proxy] in Hh', Hp'. rewrite Hh in Hh'. rewrite Hp in Hp'.
        rewrite Hh', Hp'.
        destruct (Ascii.eqb c "I"); destruct (Ascii.eqb c "P");
          cbn [orb]; split; split; intros [? ?]; split;
          try assumption; try discriminate; try reflexivity.
    + destruct (option_case_special prog c a h m Hs) as (m' & e & ->).
      do 2 eexists. reflexivity.
Qed.

Lemma argc_is_1 (argv : list string) :
  (1 =? Z.of_nat (List.length argv)) = true <-> List.length argv = 1%nat.
Proof. rewrite Z.eqb_eq. lia. Qed.

Lemma proxy_get_options_usage argv h m :
  usage_requested env argv ->
  exists m' e, proxy_get_options env argv h m = Exits EXIT_SUCCESS m' e.
Proof.
  intros U. unfold proxy_get_options. cbv zeta.
  destruct (1 =? Z.of_nat (List.length argv)) eqn:E.
  - do 2 eexists. reflexivity.
  - destruct U as [U|U].
    + apply argc_is_1 in U. congruence.
    + pose proof (options_loop_cases (hd ""%string argv)
                    (getopt_long env argv) h m) as H.
      rewrite U in H. exact H.
Qed.

Lemma proxy_get_options_parsed argv h m :
  ~ usage_requested env argv ->
  match first_special (getopt_long env argv) with
  | Some _ =>
      exists m' e, proxy_get_options env argv h m = Exits EXIT_FAILURE m' e
  | None =>
      exists p',
        proxy_get_options env argv h m = Returns tt (set_proxy p' m) [] /\
        (TLSConnection.host (tlsconn p') = None <->
         has_option "I" (getopt_long env argv) = false /\
         TLSConnection.host (tlsconn (proxy m)) = None) /\
        (TLSConnection.port (tlsconn p') = None <->
         has_option "P" (getopt_long env argv) = false /\
         TLSConnection.port (tlsconn (proxy m)) = None)
  end.
Proof.
  intros U. unfold proxy_get_options. cbv zeta.
  destruct (1 =? Z.of_nat (List.length argv)) eqn:E.
  - apply argc_is_1 in E. exfalso. apply U. left. exact E.
  - pose proof (options_loop_cases (hd ""%string argv)
                  (getopt_long env argv) h m) as H.
    destruct (first_special (getopt_long env argv)) as [c|] eqn:F;
      [|exact H].
    destruct (Ascii.eqb c "h") eqn:Ec; [|exact H].
    apply Ascii.eqb_eq in Ec. subst c. exfalso. apply U. right. exact F.
Qed.










Lemma usage_requested_dec argv :
  usage_requested env argv \/ ~ usage_requested env argv.
Proof.
  unfold usage_requested.
  destruct (Nat.eq_dec (List.length argv) 1) as [E|E]; [left; left; exact E|].
  destruct (first_special (getopt_long env argv)) as [c|].
  - destruct (Ascii.eqb_spec c "h") as [->|Hc].
    + left. right. reflexivity.
    + right. intros [H|H]; [contradiction|]. injection H as H. contradiction.
  - right. intros [H|H]; [contradiction|discriminate].
Qed.

Lemma after_proxy_init {B} evs (k : unit -> M B) h m Q :
  (forall h',
     after (evs ++ [(C_secure_memset_proxy, 0); (C_init, 0)])
           (k tt h' (set_proxy (initial_proxy env) m)) Q) ->
  after evs (bind (proxy_init env) k h m) Q.
Proof.
  intros H. apply after_bind. unfold after. rewrite proxy_init_eq.
  cbn [prepend]. intros. apply H.
Qed.


(** *** Session setup and teardown *)

(** C10: for every proxy state, [proxy_cleanup] returns and leaves the
    proxy in exactly the state [proxy_init] produces (from any state);
    run again on that state it changes nothing, and its [tls_cleanup]
    part releases no handle: the calls are [cleanup], [secure_memset]
    and [init] only. *)
Theorem proxy_cleanup_idempotent h m :
  let o := proxy_cleanup env h m in
  (exists evs, o = Returns tt (set_proxy (initial_proxy env) m) evs) /\
  (forall h0 m0,
     exists evs0,
       proxy_init env h0 m0
       = Returns tt (set_proxy (initial_proxy env) m0) evs0) /\
  (forall h',
     proxy_cleanup env h' (final_mem o)
     = Returns tt (final_mem o)
               [(C_cleanup, 0); (C_secure_memset_proxy, 0); (C_init, 0)]).
Proof.
  cbv zeta. rewrite proxy_cleanup_eq. split; [|split].
  - eexists; reflexivity.
  - intros h0 m0. rewrite proxy_init_eq. eexists; reflexivity.
  - intros h'. rewrite proxy_cleanup_eq. reflexivity.
Qed.






(** C6: wherever the trace of [setup_tlsconn] shows a connection
    attempt, the events before it show that the context the connection
    was built on had its protocol floor set to TLS 1.2 (the call
    returned 1), peer verification switched on and the verification depth
    set to 5; and no call setting the floor had failed.  So a failure of
    the configuration means no connection attempt. *)
Theorem tls_context_configured_before_connect h m pre bio x post :
  events (setup_tlsconn env h m) = pre ++ (C_BIO_do_connect bio, x) :: post ->
  absent is_failed_floor pre /\
  exists ctx,
    In (C_BIO_new_ssl_connect ctx, bio) pre /\
    In (C_SSL_CTX_set_min_proto_version ctx TLS1_2_VERSION, 1) pre /\
    In (C_SSL_CTX_set_verify ctx SSL_VERIFY_PEER, 0) pre /\
    In (C_SSL_CTX_set_verify_depth ctx 5, 0) pre.
Proof.
  intros E. destruct (setup_tlsconn_spec h m) as (_ & _ & _ & H).
  destruct (H _ _ _ _ E) as (F & c & (H1 & H2 & H3 & _) & (H4 & _)).
  split; [exact F|]. exists c. auto.
Qed.

(** C7: wherever the trace of [setup_tlsconn] shows a connection
    attempt, the events before it show that the Server Name Indication
    and the host name for certificate verification were both set, on the
    SSL object of that connection, to the host string of the
    configuration. *)
Theorem sni_and_verified_host_are_the_configured_host h m pre bio x post :
  events (setup_tlsconn env h m) = pre ++ (C_BIO_do_connect bio, x) :: post ->
  let host := TLSConnection.host (tlsconn (proxy m)) in
  exists ssl,
    In (C_BIO_get_ssl bio, ssl) pre /\
    In (C_SSL_set_tlsext_host_name ssl host, 1) pre /\
    In (C_SSL_set1_host ssl host, 1) pre.
Proof.
  intros E. destruct (setup_tlsconn_spec h m) as (_ & _ & _ & H).
  destruct (H _ _ _ _ E) as (_ & c & _ & (_ & ssl & H1 & H2 & H3)).
  exists ssl. auto.
Qed.

(** C8 (amended): the two client credentials are handled one by one.
    Wherever the trace of [setup_tlsconn] shows a connection attempt,
    each credential that is configured was loaded into the context
    before it (the call returned 1); a credential that is not
    configured is never loaded. *)
Theorem client_credentials_loaded_one_by_one h m pre bio x post :
  events (setup_tlsconn env h m) = pre ++ (C_BIO_do_connect bio, x) :: post ->
  let tc := tlsconn (proxy m) in
  (TLSConnection.client_key_path tc = None ->
     absent is_use_PrivateKey_file (events (setup_tlsconn env h m))) /\
  (TLSConnection.client_cert_path tc = None ->
     absent is_use_certificate_file (events (setup_tlsconn env h m))) /\
  exists ctx,
    In (C_BIO_new_ssl_connect ctx, bio) pre /\
    (forall k, TLSConnection.client_key_path tc = Some k ->
       In (C_SSL_CTX_use_PrivateKey_file ctx (Some k) SSL_FILETYPE_PEM, 1)
          pre) /\
    (forall k, TLSConnection.client_cert_path tc = Some k ->
       In (C_SSL_CTX_use_certificate_file ctx (Some k) SSL_FILETYPE_PEM, 1)
          pre).
Proof.
  intros E. destruct (setup_tlsconn_spec h m) as (_ & K1 & K2 & H).
  destruct (H _ _ _ _ E) as (_ & c & (_ & _ & _ & H4 & H5) & (H6 & _)).
  repeat split; auto. exists c. auto.
Qed.

(** *** Further properties of the TLS client construction *)

(** Closes the goals the stepping leaves for [trust_roots_post]. *)
Ltac trust_leaf m :=
  returned_1;
  cbn [app trust_roots_post proxy heap tlsconn ecdhconn set_proxy
       TLSConnection.set_ctx TLSConnection.ca_path TLSConnection.ctx] in *;
  try match goal with
      | H : TLSConnection.ca_path _ = _ |- _ => rewrite H
      end;
  try destruct (TLSConnection.ca_path (tlsconn (proxy m)));
  (split; [reflexivity | intro; try discriminate; in_events]).

(** X1: trust roots.  With a CA file configured, [tls_config_ctx] never
    falls back to the default verify paths, and when it returns 0 it has
    loaded that file into the context (the call returned 1); without
    one, it never loads a file, and when it returns 0 it has set the
    default verify paths. *)
Theorem tls_config_ctx_trust_roots h m :
  trust_roots_post m (tls_config_ctx env h m).
Proof.
  apply after_start. unfold tls_config_ctx. repeat step; trust_leaf m.
Qed.

(** A branch the code cannot take: its test has the other value. *)
Ltac impossible := cbn [negb] in *; congruence.

Ltac logged_leaf :=
  first [ impossible
        | returned_1; cbn [app logged_result];
          first [ left; split; reflexivity | right; split; reflexivity ] ].

(** X2: every failure of a configuration step is logged, and only
    failures are: each of [tls_config_ctx], [tls_config_conn] and
    [tls_connect] returns 0 without having logged at [LOG_ERR], or -1
    after having logged at [LOG_ERR]; no other value is returned. *)
Theorem tls_steps_log_their_failures :
  (forall h m, logged_result (tls_config_ctx env h m)) /\
  (forall h m, logged_result (tls_config_conn env h m)) /\
  (forall h m, logged_result (tls_connect env h m)).
Proof.
  split; [|split]; intros h m; apply after_start.
  - unfold tls_config_ctx. repeat step; logged_leaf.
  - unfold tls_config_conn. repeat step; logged_leaf.
  - unfold tls_connect, tls_get_verify_error. repeat step; logged_leaf.
Qed.

(** X3: what [tls_connect] reports.  It returns 0 exactly when
    [BIO_do_connect] returned 1, after that call and [ERR_get_error]
    only; otherwise it returns -1 and looks up the SSL object of the
    connection, and if there is one whose verification result is not
    [X509_V_OK], the text of that result is logged at [LOG_ERR]. *)
Theorem tls_connect_reports_verification h m :
  connect_report_post m (tls_connect env h m).
Proof.
  apply after_start. unfold tls_connect, tls_get_verify_error.
  repeat step; try impossible;
    cbn [app connect_report_post];
    (split; [reflexivity|]); eexists; (split; [reflexivity|]);
    (split; intros Hx).
  all: try (subst; cbn in *; congruence).
  all: try (returned_1; first [split; reflexivity | congruence]).
  all: split; [reflexivity|]; eexists; (split; [in_events|]); intros Hssl.
  all: try (apply Z.eqb_eq in Heqb0; congruence).
  all: eexists; (split; [in_events|]); intros Hv.
  all: try (apply negb_false_iff, Z.eqb_eq in Heqb1; congruence).
  all: split; in_events.
Qed.

(** *** OpenSSL handles *)

Ltac handles_leaf :=
  first
    [ impossible
    | cbn [app ctx_handles_post conn_handles_post connect_handles_post
           proxy heap tlsconn ecdhconn set_proxy
           TLSConnection.set_ctx TLSConnection.set_conn
           TLSConnection.ctx TLSConnection.conn
           ctx_created bio_created ctx_freed bio_freed flat_map];
      repeat match goal with
             | |- _ /\ _ => split
             | |- _ -> _ => intro
             end;
      try discriminate;
      repeat match goal with
             | H : _ = NULL |- _ => rewrite H
             | H : (_ =? NULL) = _ |- _ =>
                 first [ apply Z.eqb_eq in H; rewrite H
                       | apply Z.eqb_neq in H ]
             end;
      first [ reflexivity | assumption
            | rewrite ?app_nil_r; reflexivity ] ].

Lemma tls_config_ctx_handles h m :
  ctx_handles_post m (tls_config_ctx env h m).
Proof.
  apply after_start. unfold tls_config_ctx. repeat step; handles_leaf.
Qed.

Lemma tls_config_conn_handles h m :
  conn_handles_post m (tls_config_conn env h m).
Proof.
  apply after_start. unfold tls_config_conn. repeat step; handles_leaf.
Qed.

Lemma tls_connect_handles h m :
  connect_handles_post m (tls_connect env h m).
Proof.
  apply after_start. unfold tls_connect, tls_get_verify_error.
  repeat step; handles_leaf.
Qed.

Lemma ctx_created_app e1 e2 :
  ctx_created (e1 ++ e2) = ctx_created e1 ++ ctx_created e2.
Proof. apply flat_map_app. Qed.

Lemma bio_created_app e1 e2 :
  bio_created (e1 ++ e2) = bio_created e1 ++ bio_created e2.
Proof. apply flat_map_app. Qed.

Lemma ctx_freed_app e1 e2 :
  ctx_freed (e1 ++ e2) = ctx_freed e1 ++ ctx_freed e2.
Proof. apply flat_map_app. Qed.

Lemma bio_freed_app e1 e2 :
  bio_freed (e1 ++ e2) = bio_freed e1 ++ bio_freed e2.
Proof. apply flat_map_app. Qed.

(** The teardown frees the handles the struct holds, the connection
    before the context, and creates none. *)
Lemma cleanup_events_handles tc s :
  let e := cleanup_events tc ++ [(C_exit s, 0)] in
  ctx_freed e = held (TLSConnection.ctx tc) /\
  bio_freed e = held (TLSConnection.conn tc) /\
  ctx_created e = [] /\ bio_created e = [].
Proof.
  unfold cleanup_events, tls_cleanup_events, held.
  destruct (TLSConnection.conn tc =? NULL);
    destruct (TLSConnection.ctx tc =? NULL); repeat split.
Qed.

Lemma held_NULL : held NULL = [].
Proof. reflexivity. Qed.

Lemma held_not_NULL p : p <> NULL -> held p = [p].
Proof. intros H. unfold held. apply Z.eqb_neq in H. rewrite H. reflexivity. Qed.

Lemma setup_tlsconn_handles h m :
  TLSConnection.ctx (tlsconn (proxy m)) = NULL ->
  TLSConnection.conn (tlsconn (proxy m)) = NULL ->
  setup_handles_post (setup_tlsconn env h m).
Proof.
  intros Hctx0 Hconn0. apply after_start. unfold setup_tlsconn.
  apply (after_bind_spec (ctx_handles_post m) _ _ _ _ _ _
                         (tls_config_ctx_handles h m)).
  intros [r1 m1 e1| |] P1; try contradiction. intros h1.
  destruct P1 as (Cc1 & Cb1 & Fc1 & Fb1 & Hb1 & N1).
  specialize (Cc1 Hctx0).
  destruct (cleanup_events_handles (tlsconn (proxy m1)) EXIT_FAILURE)
    as (K1 & K2 & K3 & K4).
  cbn [app]. step.
  { apply after_proxy_error. cbn [setup_handles_post].
    rewrite ctx_freed_app, bio_freed_app, ctx_created_app, bio_created_app.
    rewrite K1, K2, K3, K4, Cc1, Cb1, Fc1, Fb1, Hb1, Hconn0, held_NULL.
    rewrite app_nil_r. split; reflexivity. }
  apply negb_false_iff, Z.eqb_eq in Heqb. subst r1. specialize (N1 eq_refl).
  clear K1 K2 K3 K4. step. cbv beta.
  apply (after_bind_spec (conn_handles_post m1) _ _ _ _ _ _
                         (tls_config_conn_handles _ m1)).
  intros [r2 m2 e2| |] P2; try contradiction. intros h2.
  destruct P2 as (Cb2 & Cc2 & Fc2 & Fb2 & Hc2 & N2).
  destruct (cleanup_events_handles (tlsconn (proxy m2)) EXIT_FAILURE)
    as (K1 & K2 & K3 & K4).
  step.
  { apply after_proxy_error. cbn [setup_handles_post].
    set (T := cleanup_events (tlsconn (proxy m2))
                ++ [(C_exit EXIT_FAILURE, 0)]) in *.
    rewrite !ctx_freed_app, !bio_freed_app, !ctx_created_app,
      !bio_created_app.
    rewrite K1, K2, K3, K4, Cc1, Cb1, Fc1, Fb1, Cc2, Cb2, Fc2, Fb2, Hc2.
    rewrite !app_nil_r. split; reflexivity. }
  apply negb_false_iff, Z.eqb_eq in Heqb. subst r2. specialize (N2 eq_refl).
  step. cbv beta.
  apply (after_bind_spec (connect_handles_post m2) _ _ _ _ _ _
                         (tls_connect_handles _ m2)).
  intros [r3 m3 e3| |] P3; try contradiction. intros h3.
  destruct P3 as (-> & Cc3 & Cb3 & Fc3 & Fb3).
  step.
  { apply after_proxy_error. cbn [setup_handles_post].
    set (T := cleanup_events (tlsconn (proxy m2))
                ++ [(C_exit EXIT_FAILURE, 0)]) in *.
    rewrite !ctx_freed_app, !bio_freed_app, !ctx_created_app,
      !bio_created_app.
    rewrite K1, K2, K3, K4, Cc1, Cb1, Fc1, Fb1, Cc2, Cb2, Fc2, Fb2,
      Cc3, Cb3, Fc3, Fb3, Hc2.
    rewrite !app_nil_r. split; reflexivity. }
  step. step. cbn [setup_handles_post].
  rewrite !ctx_freed_app, !bio_freed_app, !ctx_created_app,
    !bio_created_app.
  rewrite Cc1, Cb1, Fc1, Fb1, Cc2, Cb2, Fc2, Fb2, Cc3, Cb3, Fc3, Fb3.
  rewrite <- Hc2 in N1. rewrite Hc2 at 1. rewrite <- Hc2.
  rewrite (held_not_NULL _ N1), (held_not_NULL _ N2).
  repeat split; auto.
Qed.

(** X4: no OpenSSL handle is lost by [setup_tlsconn].  Entered with no
    context and no connection in the struct (as [proxy_init] leaves it),
    it either returns with exactly one context and one connection
    created, both non-NULL and both in the struct, and nothing freed; or
    the process exits, and then what was freed is what was created:
    every context and every connection, once each. *)
Theorem setup_tlsconn_releases_handles h m :
  TLSConnection.ctx (tlsconn (proxy m)) = NULL ->
  TLSConnection.conn (tlsconn (proxy m)) = NULL ->
  setup_handles_post (setup_tlsconn env h m).
Proof. apply setup_tlsconn_handles. Qed.

(** *** Further properties of the command line *)

Lemma proxy_check_options_outcome h m :
  check_options_post env h m (proxy_check_options env h m).
Proof.
  unfold check_options_post.
  destruct (ecdh_ret env h C_check_options (ecdhconn (proxy m)))
    as [e'|s] eqn:E.
  - cbv zeta.
    destruct (TLSConnection.host (tlsconn (proxy m))) as [hst|] eqn:Eh;
      destruct (TLSConnection.port (tlsconn (proxy m))) as [prt|] eqn:Ep;
      cbn [app];
      unfold proxy_check_options; unfold bind at 1; unfold call_ecdh at 1;
      rewrite E;
      lazymatch goal with
      | |- prepend ?e ?o = ?X => change (after e o (fun o' => o' = X))
      end;
      step; cbn [proxy set_proxy tlsconn]; rewrite Eh, Ep;
      repeat step; try apply after_proxy_error;
      cbn [app proxy set_proxy tlsconn]; reflexivity.
  - unfold proxy_check_options. unfold bind at 1. unfold call_ecdh at 1.
    rewrite E. reflexivity.
Qed.

(** X5: [proxy_check_options] runs the ECDH check first.  If that
    returns, a command line with remote host and remote port passes
    silently; otherwise every missing one of the two is complained about
    on stderr (both, if both are missing) before the error is logged and
    the process ends with [EXIT_FAILURE] after the teardown. *)
Theorem proxy_check_options_cases h m :
  check_options_post env h m (proxy_check_options env h m).
Proof. apply proxy_check_options_outcome. Qed.

Ltac stored_case E :=
  apply Ascii.eqb_eq in E; subst; intros _; eexists;
  split; [reflexivity|];
  split;
  [intros L HL; cbn [path_letters In] in HL;
   repeat (destruct HL as [HL|HL]; [subst L; reflexivity|]);
   contradiction
  |split; [reflexivity | repeat split]].

Lemma option_case_fields prog c a h m :
  stores c = true ->
  exists p',
    option_case env prog c a h m = Returns tt (set_proxy p' m) [] /\
    (forall L, In L path_letters ->
       path_option L p'
       = (if Ascii.eqb c L then Some a else path_option L (proxy m))) /\
    ECDHServer.maxconn (ecdhconn p')
    = (if Ascii.eqb c "m" then to_int (atoi env a)
       else ECDHServer.maxconn (ecdhconn (proxy m))) /\
    same_handles (proxy m) p'.
Proof.
  unfold stores, option_case. cbn [existsb].
  destruct (Ascii.eqb c "r") eqn:Er; [stored_case Er|].
  destruct (Ascii.eqb c "u") eqn:Eu; [stored_case Eu|].
  destruct (Ascii.eqb c "p") eqn:Ep; [stored_case Ep|].
  destruct (Ascii.eqb c "I") eqn:EI; [stored_case EI|].
  destruct (Ascii.eqb c "P") eqn:EP; [stored_case EP|].
  destruct (Ascii.eqb c "C") eqn:EC; [stored_case EC|].
  destruct (Ascii.eqb c "R") eqn:ER; [stored_case ER|].
  destruct (Ascii.eqb c "U") eqn:EU; [stored_case EU|].
  destruct (Ascii.eqb c "m") eqn:Em; [stored_case Em|].
  discriminate.
Qed.

Lemma options_loop_stores prog opts :
  forall h m,
    first_special opts = None ->
    exists p',
      options_loop env prog opts h m = Returns tt (set_proxy p' m) [] /\
      options_stored env opts (proxy m) p'.
Proof.
  induction opts as [|[c a] opts IH]; intros h m; cbn [first_special].
  - intros _. exists (proxy m). destruct m as [p hp].
    split; [reflexivity|]. repeat split.
  - destruct (stores c) eqn:Hs; [|discriminate]. intros F.
    cbn [options_loop]. unfold bind.
    destruct (option_case_fields prog c a h m Hs)
      as (p1 & -> & Hp1 & Hm1 & (A1 & A2 & A3 & A4)).
    destruct (IH (h ++ []) (set_proxy p1 m) F)
      as (p' & -> & Hp' & Hm' & (B1 & B2 & B3 & B4)).
    cbn [set_proxy proxy] in *.
    exists p'. split; [reflexivity|]. split; [|split].
    + intros L HL. rewrite (Hp' L HL), (Hp1 L HL). cbn [last_optarg].
      destruct (last_optarg L opts); [reflexivity|].
      destruct (Ascii.eqb c L); reflexivity.
    + rewrite Hm', Hm1. cbn [last_optarg].
      destruct (last_optarg "m" opts); [reflexivity|].
      destruct (Ascii.eqb c "m"); reflexivity.
    + unfold same_handles. repeat split; congruence.
Qed.

(** X6: a command line of storing options only (and more than the
    program name) is parsed silently: [proxy_get_options] returns without
    any external call, every member named by an option holds the
    argument of the last occurrence of that option, [maxconn] holds
    [atoi] of the last [-m], members whose option does not occur are
    unchanged, and so are the handles and the remaining storage. *)
Theorem proxy_get_options_last_wins argv h m :
  List.length argv <> 1%nat ->
  first_special (getopt_long env argv) = None ->
  exists p',
    proxy_get_options env argv h m = Returns tt (set_proxy p' m) [] /\
    options_stored env (getopt_long env argv) (proxy m) p'.
Proof.
  intros Hargc F. unfold proxy_get_options. cbv zeta.
  destruct (1 =? Z.of_nat (List.length argv)) eqn:E.
  - apply argc_is_1 in E. contradiction.
  - apply options_loop_stores. exact F.
Qed.

(** *** Further properties of the relay loop *)

Lemma after_poll {B} evs l (k : Z * Z -> M B) h m Q :
  (forall rv x h',
     after (evs ++ [(C_poll (pfd0 l) (pfd1 l) NUM_POLL_FDS (-1), x)])
           (k rv h' m) Q) ->
  after evs (bind (poll env l) k h m) Q.
Proof.
  intros H. apply after_bind. unfold after, poll. simpl. intros. apply H.
Qed.

Lemma after_ecdh_recv_decrypt {B} evs (k : ptr * Z -> M B) h m Q :
  (forall e' p data h',
     after (evs ++ [(C_ecdh_recv_decrypt, 0)])
           (k (p, to_size_t (Z.of_nat (List.length data))) h'
              (mkMem (mkProxy e' (tlsconn (proxy m)))
                     (if p =? NULL then heap m
                      else heap_store p (mkBlock data true) (heap m)))) Q) ->
  (forall s,
     Q (Exits s m (evs ++ [(C_ecdh_recv_decrypt, 0); (C_exit s, 0)]))) ->
  after evs (bind (ecdh_recv_decrypt env) k h m) Q.
Proof.
  intros H1 H2. apply after_bind. unfold after, ecdh_recv_decrypt.
  destruct (ecdh_ret env h C_ecdh_recv_decrypt (ecdhconn (proxy m))).
  - destruct (recv_payload env h) as [p data]. simpl. intros. apply H1.
  - simpl. apply H2.
Qed.

(** Stepping through the code of the relay loop. *)
Ltac relay_step :=
  cbv beta iota zeta;
  first
    [ apply after_poll; intros ? ? ?
    | apply after_ecdh_recv_decrypt; [intros ? ? ? ?|intros ?]
    | apply after_BIO_read; intros ? ? ?
    | apply after_call_ecdh; [intros ? ?|intros ? _]
    | apply after_proxy_error
    | step ].

Ltac unfold_turn :=
  unfold proxy_iter, relay_inbound, relay_outbound, BIO_write,
    kmyth_clear_and_free, ecdh_encrypt_send.

Ltac turn_leaf :=
  unfold turn_post; cbn [events];
  unfold cleanup_events, tls_cleanup_events;
  repeat match goal with
         | |- context [if negb (?x =? NULL) then _ else _] =>
             destruct (negb (x =? NULL))
         end;
  cbn [app]; unfold count;
  repeat match goal with
         | |- _ /\ _ => split
         end;
  first [ eexists; reflexivity | cbn; lia | reflexivity ].

(** X7: one turn of the relay loop.  Whatever the environment does, a
    turn starts with the one [poll], makes at most one
    [ecdh_recv_decrypt], one [BIO_write], one [kmyth_clear_and_free],
    one [BIO_read] and one [ecdh_encrypt_send], and makes no inbound
    call after an outbound one: one read per direction per wakeup, the
    inbound direction first. *)
Theorem proxy_iter_one_read_per_direction l h m :
  turn_post l (proxy_iter env ECDH_MAX_MSG_SIZE l h m).
Proof.
  apply after_start. unfold_turn. repeat relay_step; turn_leaf.
Qed.

(** X8: a wakeup with nothing to read.  If [poll] comes back with
    [POLLIN] set for neither descriptor, the turn makes no other call,
    changes neither memory nor locals, and the loop polls again. *)
Theorem proxy_iter_idle l h m r0 r1 :
  poll_revents env h = (r0, r1) ->
  Z.land r0 POLLIN = 0 ->
  Z.land r1 POLLIN = 0 ->
  let polled := (C_poll (pfd0 l) (pfd1 l) NUM_POLL_FDS (-1),
                 int_ret env h (C_poll (pfd0 l) (pfd1 l) NUM_POLL_FDS (-1))) in
  proxy_iter env ECDH_MAX_MSG_SIZE l h m = Returns (Continue, l) m [polled] /\
  forall fuel,
    proxy_loop env ECDH_MAX_MSG_SIZE (S fuel) l h m
    = prepend [polled]
              (proxy_loop env ECDH_MAX_MSG_SIZE fuel l (h ++ [polled]) m).
Proof.
  intros Hp H0 H1 polled.
  assert (E : proxy_iter env ECDH_MAX_MSG_SIZE l h m
              = Returns (Continue, l) m [polled]).
  { unfold proxy_iter. unfold bind at 1. unfold poll at 1. rewrite Hp.
    cbn [fst snd prepend]. unfold relay_inbound, relay_outbound.
    rewrite H0, H1. reflexivity. }
  split; [exact E|]. intros fuel. cbn [proxy_loop]. unfold bind at 1.
  rewrite E. reflexivity.
Qed.

Lemma events_of_prepend {A} e1 (o : Outcome A) :
  events (prepend e1 o) = e1 ++ events o.
Proof. destruct o; reflexivity. Qed.

Lemma cleanup_within_buffer tc s :
  Forall (within_buffer ECDH_MAX_MSG_SIZE)
         (cleanup_events tc ++ [(C_exit s, 0)]).
Proof.
  unfold cleanup_events, tls_cleanup_events.
  destruct (negb (TLSConnection.conn tc =? NULL));
    destruct (negb (TLSConnection.ctx tc =? NULL));
    repeat constructor.
Qed.

(** [BIO_read] on a path of the code, its result tied to the
    environment. *)
Lemma after_BIO_read_result {B} evs bio buf len (k : Z * bytes -> M B)
      h m Q :
  (forall h0 data h',
     let n := to_int (int_ret env h0 (C_BIO_read bio len)) in
     after (evs ++ [(C_BIO_read bio len, n)])
           (k (n, if 0 <? n then blit (firstn (Z.to_nat n) data) buf
                  else buf) h' m) Q) ->
  after evs (bind (BIO_read env bio buf len) k h m) Q.
Proof.
  intros H. apply after_bind. unfold after, BIO_read. simpl. intros.
  apply H.
Qed.

(** The tests the code has made on the path, as propositions. *)
Ltac path_tests :=
  repeat match goal with
         | H : (_ =? _) = false |- _ => apply Z.eqb_neq in H
         | H : (_ <? _) = false |- _ => apply Z.ltb_ge in H
         | H : (_ <? _) = true |- _ => apply Z.ltb_lt in H
         | H : (_ =? _) = true |- _ => apply Z.eqb_eq in H
         end.

Ltac buffer_leaf Hl :=
  unfold buffer_post; cbn [events app]; split;
  [ repeat (lazymatch goal with
            | |- Forall _ (_ :: _) => apply Forall_cons
            end;
            [cbn [within_buffer fst tls_msg_buf set_inbound set_outbound];
             first [ exact I | reflexivity
                   | path_tests; rewrite length_firstn;
                     match goal with
                     | |- context [if ?c then _ else _] => destruct c
                     end;
                     rewrite ?blit_length, ?Hl; lia ]
            |]);
    first [ apply Forall_nil | apply cleanup_within_buffer ]
  | try exact I;
    cbn [tls_msg_buf set_inbound set_outbound];
    try match goal with
        | |- context [if ?c then _ else _] => destruct c
        end;
    rewrite ?blit_length; exact Hl ].

Lemma proxy_iter_buffer l h m :
  bio_read_bounded env ECDH_MAX_MSG_SIZE ->
  List.length (tls_msg_buf l) = Z.to_nat ECDH_MAX_MSG_SIZE ->
  buffer_post ECDH_MAX_MSG_SIZE (proxy_iter env ECDH_MAX_MSG_SIZE l h m).
Proof.
  intros Hb Hl. apply after_start. unfold_turn.
  repeat first
    [ apply after_BIO_read_result; intros ? ? ? n;
      lazymatch goal with
      | n0 := to_int (int_ret env ?hh (C_BIO_read ?bio _)) |- _ =>
          pose proof (Hb hh bio) as Hn;
          change (n0 <= ECDH_MAX_MSG_SIZE) in Hn; clearbody n0
      end
    | relay_step ];
    buffer_leaf Hl.
Qed.

Lemma proxy_loop_buffer fuel :
  bio_read_bounded env ECDH_MAX_MSG_SIZE ->
  forall l h m,
    List.length (tls_msg_buf l) = Z.to_nat ECDH_MAX_MSG_SIZE ->
    Forall (within_buffer ECDH_MAX_MSG_SIZE)
           (events (proxy_loop env ECDH_MAX_MSG_SIZE fuel l h m)).
Proof.
  intros Hb.
  induction fuel as [|fuel IH]; intros l h m Hl; cbn [proxy_loop].
  - constructor.
  - unfold bind.
    destruct (proxy_iter_buffer l h m Hb Hl) as [He Hl'].
    destruct (proxy_iter env ECDH_MAX_MSG_SIZE l h m)
      as [[[|] l1] m1 e1|s1 m1 e1|m1 e1]; cbn [events] in *; auto.
    + rewrite events_of_prepend. apply Forall_app. split; auto.
    + cbn. rewrite app_nil_r. exact He.
Qed.

(** X9: the relay loop stays within its buffer.  As long as [BIO_read]
    returns no more than the [ECDH_MAX_MSG_SIZE] bytes it is asked for,
    in every run of [proxy_start], however many turns it takes, every
    [BIO_read] asks for [ECDH_MAX_MSG_SIZE] bytes, and every count
    handed to [ecdh_encrypt_send] is positive, at most
    [ECDH_MAX_MSG_SIZE], and is the number of bytes handed over with
    it. *)
Theorem proxy_start_within_buffer fuel h m :
  bio_read_bounded env ECDH_MAX_MSG_SIZE ->
  Forall (within_buffer ECDH_MAX_MSG_SIZE)
         (events (proxy_start env ECDH_MAX_MSG_SIZE fuel h m)).
Proof.
  intros Hb.
  apply (after_start _ (fun o => Forall _ (events o))).
  unfold proxy_start. repeat step. cbv beta zeta.
  unfold after. rewrite events_of_prepend, bind_ret_r. cbn [app].
  repeat (lazymatch goal with
          | |- Forall _ (_ :: _) => apply Forall_cons
          end; [exact I|]).
  apply proxy_loop_buffer; [exact Hb|]. unfold zeros. apply repeat_length.
Qed.

(** *** Order of the phases of a session *)

Lemma never_ret {A} p (a : A) : never p (ret a).
Proof. intros h m. reflexivity. Qed.

Lemma never_bind {A B} p (c : M A) (k : A -> M B) :
  never p c -> (forall a, never p (k a)) -> never p (bind c k).
Proof.
  intros Hc Hk h m. unfold bind. specialize (Hc h m).
  destruct (c h m) as [a m1 e1|s1 m1 e1|m1 e1]; cbn [events] in *; auto.
  rewrite events_of_prepend. apply absent_app. split; [exact Hc|apply Hk].
Qed.

Lemma never_get_proxy p : never p get_proxy.
Proof. intros h m. reflexivity. Qed.

Lemma never_put_proxy p x : never p (put_proxy x).
Proof. intros h m. reflexivity. Qed.

Lemma never_get_heap p : never p get_heap.
Proof. intros h m. reflexivity. Qed.

Lemma never_put_heap p x : never p (put_heap x).
Proof. intros h m. reflexivity. Qed.

Lemma never_out_of_fuel {A} p : never p (@out_of_fuel A).
Proof. intros h m. reflexivity. Qed.

Lemma never_call_void p c : p (c, 0) = false -> never p (call_void c).
Proof. intros H h m. unfold absent. cbn. rewrite H. reflexivity. Qed.

Lemma never_exit {A} p s : p (C_exit s, 0) = false -> never p (@exit A s).
Proof. intros H h m. unfold absent. cbn. rewrite H. reflexivity. Qed.

Lemma never_call p c : (forall r, p (c, r) = false) -> never p (call env c).
Proof. intros H h m. unfold absent. cbn. rewrite H. reflexivity. Qed.

Lemma never_call_ecdh p c :
  p (c, 0) = false -> (forall s, p (C_exit s, 0) = false) ->
  never p (call_ecdh env c).
Proof.
  intros H1 H2 h m. unfold absent, call_ecdh.
  destruct (ecdh_ret env h c (ecdhconn (proxy m))); cbn;
    rewrite H1, ?H2; reflexivity.
Qed.

(** Takes a computation apart to show that it never makes a call. *)
Ltac never_calls :=
  repeat first
    [ apply never_ret
    | apply never_get_proxy
    | apply never_put_proxy
    | apply never_get_heap
    | apply never_put_heap
    | apply never_call_void; reflexivity
    | apply never_call; intros ?; reflexivity
    | apply never_call_ecdh; [reflexivity | intros ?; reflexivity]
    | apply never_exit; reflexivity
    | apply never_bind; [|intros ?]
    | match goal with
      | |- never _ (if ?c then _ else _) => destruct c
      | |- never _ (match ?c with Some _ => _ | None => _ end) =>
          destruct c
      end ].

Ltac unfold_setup :=
  unfold setup_ecdhconn, setup_tlsconn, tls_config_ctx, tls_config_conn,
    tls_connect, tls_get_verify_error, log_openssl_error, kmyth_log,
    modify_tlsconn, proxy_error, proxy_cleanup, cleanup, tls_cleanup,
    proxy_init, secure_memset_proxy, init, modify_ecdhconn.

Lemma setup_ecdhconn_no_openssl : never is_openssl_call (setup_ecdhconn env).
Proof. unfold_setup. never_calls. Qed.

Lemma setup_ecdhconn_no_poll : never is_poll (setup_ecdhconn env).
Proof. unfold_setup. never_calls. Qed.

Lemma setup_tlsconn_no_poll : never is_poll (setup_tlsconn env).
Proof. unfold_setup. never_calls. Qed.

Lemma setup_ecdhconn_calls h m : handshake_post (setup_ecdhconn env h m).
Proof.
  apply after_start. unfold setup_ecdhconn.
  repeat (apply after_call_ecdh; [intros ? ?; cbv beta | intros ? _]).
  2-8: cbn [app handshake_post];
    first [ exists 6%nat; split; [lia | reflexivity]
          | exists 5%nat; split; [lia | reflexivity]
          | exists 4%nat; split; [lia | reflexivity]
          | exists 3%nat; split; [lia | reflexivity]
          | exists 2%nat; split; [lia | reflexivity]
          | exists 1%nat; split; [lia | reflexivity]
          | exists 0%nat; split; [lia | reflexivity] ].
  apply after_ret. cbn [app handshake_post]. split; reflexivity.
Qed.

(** An event of a kind that does not occur in [A] sits in what follows
    [A]. *)
Lemma split_after_absent p A B pre y post :
  absent p A -> p y = true ->
  A ++ B = pre ++ y :: post ->
  exists pre', pre = A ++ pre' /\ B = pre' ++ y :: post.
Proof.
  revert pre. induction A as [|a A IH]; intros pre HA Hy E.
  - exists pre. auto.
  - unfold absent in HA. cbn in HA. apply orb_false_iff in HA.
    destruct HA as [Ha HA]. destruct pre as [|q pre]; cbn in E.
    + injection E as E _. subst a. congruence.
    + injection E as -> E. destruct (IH pre HA Hy E) as (pre' & -> & ->).
      exists pre'. auto.
Qed.

(** X10: the phases of a session come in order.  In every run of
    [proxy_main], a call into OpenSSL is made only after the seven
    handshake calls of [setup_ecdhconn], which are the first events of
    the run; and the relay loop polls only after a [BIO_do_connect] that
    returned 1. *)
Theorem proxy_main_phases fuel h m pre ev post :
  events (proxy_main env ECDH_MAX_MSG_SIZE fuel h m) = pre ++ ev :: post ->
  (is_openssl_call ev = true ->
   exists tail, map fst pre = handshake_calls ++ tail) /\
  (is_poll ev = true ->
   exists bio, In (C_BIO_do_connect bio, 1) pre).
Proof.
  unfold proxy_main. unfold bind at 1.
  pose proof (setup_ecdhconn_calls h m) as Hs.
  pose proof (setup_ecdhconn_no_openssl h m) as No.
  pose proof (setup_ecdhconn_no_poll h m) as Np.
  destruct (setup_ecdhconn env h m) as [r1 m1 e1|s1 m1 e1|m1 e1];
    cbn [events handshake_post] in *; [|intros E|contradiction].
  2:{ split; intros Hev; exfalso;
        eapply absent_no_split; eauto. }
  destruct Hs as [_ Hs]. rewrite events_of_prepend. intros E. split.
  - intros Hev.
    destruct (split_after_absent _ _ _ _ _ _ No Hev E) as (pre' & -> & _).
    exists (map fst pre'). rewrite map_app. f_equal. exact Hs.
  - intros Hev.
    destruct (split_after_absent _ _ _ _ _ _ Np Hev E) as (pre' & -> & E2).
    clear E. revert E2. unfold bind at 1.
    pose proof (setup_tlsconn_spec (h ++ e1) m1) as (Ht & _).
    pose proof (setup_tlsconn_no_poll (h ++ e1) m1) as Np2.
    destruct (setup_tlsconn env (h ++ e1) m1) as [r2 m2 e2|s2 m2 e2|m2 e2];
      cbn [events] in *; [|intros E2|contradiction].
    2:{ exfalso. eapply absent_no_split; eauto. }
    destruct Ht as (_ & _ & p2 & bio & q2 & ->).
    rewrite events_of_prepend. intros E2.
    destruct (split_after_absent _ _ _ _ _ _ Np2 Hev E2) as (pre'' & -> & _).
    exists bio. apply in_or_app. right. apply in_or_app. left.
    apply in_or_app. right. left. reflexivity.
Qed.

(** *** Handles over the whole process *)

Lemma bind_returns {A B} (c : M A) (k : A -> M B) h m b m' e :
  bind c k h m = Returns b m' e ->
  exists a m1 e1 e2,
    c h m = Returns a m1 e1 /\
    k a (h ++ e1) m1 = Returns b m' e2 /\
    e = e1 ++ e2.
Proof.
  unfold bind. destruct (c h m) as [a m1 e1|s1 m1 e1|m1 e1];
    try discriminate.
  destruct (k a (h ++ e1) m1) as [b2 m2 e2|s2 m2 e2|m2 e2] eqn:E;
    cbn; try discriminate.
  intros H. injection H as -> -> <-. do 4 eexists. eauto.
Qed.

Lemma keeps_handles_ret {A} (a : A) : keeps_handles (ret a).
Proof. intros h m x m' e H. injection H as _ <- <-. auto. Qed.

Lemma keeps_handles_bind {A B} (c : M A) (k : A -> M B) :
  keeps_handles c -> (forall a, keeps_handles (k a)) ->
  keeps_handles (bind c k).
Proof.
  intros Hc Hk h m b m' e H.
  apply bind_returns in H. destruct H as (a & m1 & e1 & e2 & H1 & H2 & ->).
  destruct (Hc _ _ _ _ _ H1) as (F1 & C1 & B1).
  destruct (Hk _ _ _ _ _ _ H2) as (F2 & C2 & B2).
  rewrite filter_app, F1, F2. repeat split; congruence.
Qed.

Lemma keeps_handles_get_proxy : keeps_handles get_proxy.
Proof. intros h m x m' e H. injection H as _ <- <-. auto. Qed.

Lemma keeps_handles_get_heap : keeps_handles get_heap.
Proof. intros h m x m' e H. injection H as _ <- <-. auto. Qed.

Lemma keeps_handles_put_heap hp : keeps_handles (put_heap hp).
Proof. intros h m x m' e H. injection H as _ <- <-. auto. Qed.

Lemma keeps_handles_out_of_fuel {A} : keeps_handles (@out_of_fuel A).
Proof. intros h m x m' e H. discriminate. Qed.

Lemma keeps_handles_call_void c :
  is_handle_call (c, 0) = false -> keeps_handles (call_void c).
Proof.
  intros Hc h m x m' e H. injection H as _ <- <-. cbn. rewrite Hc. auto.
Qed.

Lemma keeps_handles_call c :
  (forall r, is_handle_call (c, r) = false) -> keeps_handles (call env c).
Proof.
  intros Hc h m x m' e H. injection H as _ <- <-. cbn. rewrite Hc. auto.
Qed.

Lemma keeps_handles_call_ecdh c :
  is_handle_call (c, 0) = false -> keeps_handles (call_ecdh env c).
Proof.
  intros Hc h m x m' e. unfold call_ecdh.
  destruct (ecdh_ret env h c (ecdhconn (proxy m))); [|discriminate].
  intros H. injection H as _ <- <-. cbn. rewrite Hc. auto.
Qed.

Lemma keeps_handles_ecdh_recv_decrypt :
  keeps_handles (ecdh_recv_decrypt env).
Proof.
  intros h m x m' e. unfold ecdh_recv_decrypt.
  destruct (ecdh_ret env h C_ecdh_recv_decrypt (ecdhconn (proxy m)));
    [|discriminate].
  destruct (recv_payload env h). intros H. injection H as _ <- <-. auto.
Qed.

Lemma keeps_handles_BIO_read bio buf len :
  keeps_handles (BIO_read env bio buf len).
Proof. intros h m x m' e H. injection H as _ <- <-. auto. Qed.

Lemma keeps_handles_poll l : keeps_handles (poll env l).
Proof. intros h m x m' e H. injection H as _ <- <-. auto. Qed.

Lemma keeps_handles_proxy_error {A} : keeps_handles (@proxy_error env A).
Proof. intros h m x m' e. rewrite proxy_error_eq. discriminate. Qed.

(** Takes a computation apart to show that it keeps the handles. *)
Ltac keeps :=
  repeat first
    [ apply keeps_handles_ret
    | apply keeps_handles_get_proxy
    | apply keeps_handles_get_heap
    | apply keeps_handles_put_heap
    | apply keeps_handles_out_of_fuel
    | apply keeps_handles_proxy_error
    | apply keeps_handles_ecdh_recv_decrypt
    | apply keeps_handles_BIO_read
    | apply keeps_handles_poll
    | apply keeps_handles_call_void; reflexivity
    | apply keeps_handles_call; intros ?; reflexivity
    | apply keeps_handles_call_ecdh; reflexivity
    | apply keeps_handles_bind; [|intros ?]
    | match goal with
      | |- keeps_handles (if ?c then _ else _) => destruct c
      | |- keeps_handles (match ?c with Some _ => _ | None => _ end) =>
          destruct c
      | |- keeps_handles (let (_, _) := ?c in _) => destruct c
      end ].

Lemma keeps_handles_proxy_check_options :
  keeps_handles (proxy_check_options env).
Proof. unfold proxy_check_options, kmyth_log. keeps. Qed.

Lemma keeps_handles_setup_ecdhconn : keeps_handles (setup_ecdhconn env).
Proof. unfold setup_ecdhconn. keeps. Qed.

Lemma keeps_handles_proxy_iter l :
  keeps_handles (proxy_iter env ECDH_MAX_MSG_SIZE l).
Proof. unfold_turn. unfold kmyth_log. keeps. Qed.

Lemma keeps_handles_proxy_loop fuel :
  forall l, keeps_handles (proxy_loop env ECDH_MAX_MSG_SIZE fuel l).
Proof.
  induction fuel as [|fuel IH]; intros l; cbn [proxy_loop].
  - apply keeps_handles_out_of_fuel.
  - apply keeps_handles_bind; [apply keeps_handles_proxy_iter|].
    intros [[|] l']; [apply IH | apply keeps_handles_ret].
Qed.

Lemma keeps_handles_proxy_start fuel :
  keeps_handles (proxy_start env ECDH_MAX_MSG_SIZE fuel).
Proof.
  unfold proxy_start, kmyth_log. keeps. apply keeps_handles_proxy_loop.
Qed.

Lemma keeps_handles_proxy_get_options argv :
  keeps_handles (proxy_get_options env argv).
Proof.
  intros h m x m' e H.
  destruct (usage_requested_dec argv) as [U|U].
  - destruct (proxy_get_options_usage argv h m U) as (m1 & e1 & E).
    congruence.
  - pose proof (proxy_get_options_parsed argv h m U) as P.
    destruct (first_special (getopt_long env argv)) eqn:F.
    + destruct P as (m1 & e1 & E). congruence.
    + assert (Hargc : List.length argv <> 1%nat)
        by (intros L; apply U; left; exact L).
      clear P. revert H. unfold proxy_get_options. cbv zeta.
      destruct (1 =? Z.of_nat (List.length argv)) eqn:E1;
        [apply argc_is_1 in E1; contradiction|].
      destruct (options_loop_stores (hd ""%string argv) _ h m F)
        as (p' & -> & _ & _ & (Hc & Hb & _)).
      intros H. injection H as _ <- <-. cbn [set_proxy proxy]. auto.
Qed.

Lemma no_handle_calls e :
  filter is_handle_call e = [] ->
  ctx_created e = [] /\ bio_created e = [] /\
  ctx_freed e = [] /\ bio_freed e = [].
Proof.
  induction e as [|[c r] e IH]; [repeat split|].
  cbn [filter]. destruct (is_handle_call (c, r)) eqn:E; [discriminate|].
  intros H. destruct (IH H) as (H1 & H2 & H3 & H4).
  unfold ctx_created, bio_created, ctx_freed, bio_freed in *.
  cbn [flat_map]. rewrite H1, H2, H3, H4.
  destruct c; try discriminate E; repeat split.
Qed.

Lemma cleanup_events_frees tc :
  ctx_freed (cleanup_events tc) = held (TLSConnection.ctx tc) /\
  bio_freed (cleanup_events tc) = held (TLSConnection.conn tc) /\
  ctx_created (cleanup_events tc) = [] /\
  bio_created (cleanup_events tc) = [].
Proof.
  unfold cleanup_events, tls_cleanup_events, held.
  destruct (TLSConnection.conn tc =? NULL);
    destruct (TLSConnection.ctx tc =? NULL); repeat split.
Qed.

(** X11: a process that ends by returning from [main] has lost no
    OpenSSL handle.  Over the whole run exactly one context and one
    connection were created, both non-NULL, and exactly these were
    freed; the struct is back in the state [proxy_init] produces. *)
Theorem main_returns_without_leak fuel argv h m s m' e :
  main env ECDH_MAX_MSG_SIZE fuel argv h m = Returns s m' e ->
  exists c b,
    c <> NULL /\ b <> NULL /\
    ctx_created e = [c] /\ bio_created e = [b] /\
    ctx_freed e = [c] /\ bio_freed e = [b] /\
    proxy m' = initial_proxy env.
Proof.
  unfold main. intros H.
  apply bind_returns in H. destruct H as (? & m0 & e0 & ? & H0 & H & ->).
  rewrite proxy_init_eq in H0. injection H0 as _ <- <-.
  apply bind_returns in H. destruct H as (? & m1 & e1 & ? & H1 & H & ->).
  injection H1 as _ <- <-.
  apply bind_returns in H. destruct H as (? & m2 & e2 & ? & H2 & H & ->).
  apply keeps_handles_proxy_get_options in H2.
  destruct H2 as (F2 & C2 & B2). cbn [set_proxy proxy initial_proxy tlsconn
    TLSConnection.ctx TLSConnection.conn TLSConnection.zero] in C2, B2.
  apply bind_returns in H. destruct H as (? & m3 & e3 & ? & H3 & H & ->).
  apply keeps_handles_proxy_check_options in H3.
  destruct H3 as (F3 & C3 & B3).
  apply bind_returns in H. destruct H as (? & m4 & e4 & ? & H4 & H & ->).
  apply bind_returns in H. destruct H as (? & m5 & e5 & ? & H5 & H & ->).
  rewrite proxy_cleanup_eq in H5. injection H5 as _ <- <-.
  injection H as _ <- <-.
  (* the session *)
  unfold proxy_main in H4.
  apply bind_returns in H4.
  destruct H4 as (? & m41 & e41 & ? & H41 & H4 & ->).
  apply keeps_handles_setup_ecdhconn in H41. destruct H41 as (F41 & C41 & B41).
  apply bind_returns in H4.
  destruct H4 as (? & m42 & e42 & ? & H42 & H4 & ->).
  assert (Hctx : TLSConnection.ctx (tlsconn (proxy m41)) = NULL) by congruence.
  assert (Hbio : TLSConnection.conn (tlsconn (proxy m41)) = NULL) by congruence.
  match type of H42 with
  | setup_tlsconn _ ?hh _ = _ =>
      pose proof (setup_tlsconn_handles hh m41 Hctx Hbio) as P
  end.
  rewrite H42 in P. cbn [setup_handles_post] in P.
  destruct P as (Pc & Pb & Nc & Nb & Pfc & Pfb).
  apply bind_returns in H4.
  destruct H4 as (? & m43 & e43 & ? & H43 & H4 & ->).
  apply keeps_handles_proxy_start in H43. destruct H43 as (F43 & C43 & B43).
  injection H4 as _ <- <-.
  destruct (no_handle_calls _ F2) as (A2 & A2' & A2'' & A2''').
  destruct (no_handle_calls _ F3) as (A3 & A3' & A3'' & A3''').
  destruct (no_handle_calls _ F41) as (A4 & A4' & A4'' & A4''').
  destruct (no_handle_calls _ F43) as (A5 & A5' & A5'' & A5''').
  destruct (cleanup_events_frees (tlsconn (proxy m43)))
    as (K1 & K2 & K3 & K4).
  exists (TLSConnection.ctx (tlsconn (proxy m42))),
         (TLSConnection.conn (tlsconn (proxy m42))).
  rewrite !ctx_created_app, !bio_created_app, !ctx_freed_app, !bio_freed_app.
  rewrite A2, A2', A2'', A2''', A3, A3', A3'', A3''', A4, A4', A4'', A4''',
    A5, A5', A5'', A5''', K1, K2, K3, K4, Pc, Pb, Pfc, Pfb, C43, B43.
  rewrite (held_not_NULL _ Nc), (held_not_NULL _ Nb).
  repeat split; auto.
Qed.

(** X12: what [proxy_cleanup] releases, and when.  It frees the
    connection and the context the struct holds (each if not NULL) and
    nothing else, the connection before the context, both after the ECDH
    cleanup and before the struct is zeroed. *)
Theorem proxy_cleanup_releases_before_zeroing h m :
  let e := events (proxy_cleanup env h m) in
  let tc := tlsconn (proxy m) in
  ctx_freed e = held (TLSConnection.ctx tc) /\
  bio_freed e = held (TLSConnection.conn tc) /\
  ctx_created e = [] /\ bio_created e = [] /\
  none_after is_SSL_CTX_free is_BIO_free_all e = true /\
  none_after is_handle_call is_ecdh_cleanup e = true /\
  none_after is_secure_memset_proxy is_handle_call e = true.
Proof.
  cbv zeta. rewrite proxy_cleanup_eq. cbn [events].
  unfold cleanup_events, tls_cleanup_events, held.
  destruct (TLSConnection.conn (tlsconn (proxy m)) =? NULL);
    destruct (TLSConnection.ctx (tlsconn (proxy m)) =? NULL);
    repeat split.
Qed.

Lemma cleanup_events_same_handles tc tc' :
  TLSConnection.ctx tc' = TLSConnection.ctx tc ->
  TLSConnection.conn tc' = TLSConnection.conn tc ->
  cleanup_events tc' = cleanup_events tc.
Proof.
  intros Hc Hb. unfold cleanup_events, tls_cleanup_events.
  rewrite Hc, Hb. reflexivity.
Qed.

Lemma options_loop_trace prog opts :
  forall h m,
    events (options_loop env prog opts h m)
    = options_loop_events prog opts (tlsconn (proxy m)).
Proof.
  unfold options_loop_events.
  induction opts as [|[c a] opts IH]; intros h m; cbn [first_special].
  - reflexivity.
  - cbn [options_loop]. unfold bind.
    destruct (stores c) eqn:Hs.
    + destruct (option_case_fields prog c a h m Hs)
        as (p1 & -> & _ & _ & (Hc & Hb & _)).
      rewrite events_of_prepend, IH. cbn [app set_proxy proxy].
      rewrite (cleanup_events_same_handles _ _ Hc Hb). reflexivity.
    + revert Hs. unfold stores, option_case. cbn [existsb]. intros H.
      repeat (apply orb_false_iff in H; destruct H as [HE H]; rewrite HE;
              clear HE).
      destruct (Ascii.eqb c "h").
      * reflexivity.
      * rewrite proxy_error_eq. reflexivity.
Qed.

(** X13: the calls of [proxy_get_options].  An empty command line and
    [-h] print the usage text and exit with [EXIT_SUCCESS] without any
    teardown; an option the proxy does not know tears the session state
    down and exits with [EXIT_FAILURE]; in both cases the options stored
    before are of no effect.  A command line of storing options makes no
    call at all. *)
Theorem proxy_get_options_trace argv h m :
  events (proxy_get_options env argv h m)
  = get_options_events env argv (tlsconn (proxy m)).
Proof.
  unfold proxy_get_options, get_options_events. cbv zeta.
  destruct (1 =? Z.of_nat (List.length argv)).
  - reflexivity.
  - apply options_loop_trace.
Qed.

(** *** The descriptors of the relay loop *)

Lemma cleanup_fixed_io fd0 fd1 bio tc s :
  Forall (fixed_io fd0 fd1 bio) (cleanup_events tc ++ [(C_exit s, 0)]).
Proof.
  unfold cleanup_events, tls_cleanup_events.
  destruct (negb (TLSConnection.conn tc =? NULL));
    destruct (negb (TLSConnection.ctx tc =? NULL));
    repeat constructor.
Qed.

Ltac fixed_io_leaf :=
  unfold fixed_io_post;
  cbn [events app proxy tlsconn set_proxy set_heap pfd0 pfd1 tls_bio
       set_inbound set_outbound] in *;
  split;
  [ repeat (lazymatch goal with
            | |- Forall _ (_ :: _) => apply Forall_cons
            end;
            [cbn [fixed_io fst]; first [ exact I | assumption | auto ]|]);
    first [ apply Forall_nil | apply cleanup_fixed_io ]
  | first [ exact I | auto ] ].

Lemma proxy_iter_fixed_io fd0 fd1 bio l h m :
  pfd0 l = fd0 -> pfd1 l = fd1 -> tls_bio l = bio ->
  TLSConnection.conn (tlsconn (proxy m)) = bio ->
  fixed_io_post fd0 fd1 bio (proxy_iter env ECDH_MAX_MSG_SIZE l h m).
Proof.
  intros H0 H1 Hb Hc. apply after_start. unfold_turn.
  repeat relay_step; fixed_io_leaf.
Qed.

Lemma proxy_loop_fixed_io fd0 fd1 bio fuel :
  forall l h m,
    pfd0 l = fd0 -> pfd1 l = fd1 -> tls_bio l = bio ->
    TLSConnection.conn (tlsconn (proxy m)) = bio ->
    Forall (fixed_io fd0 fd1 bio)
           (events (proxy_loop env ECDH_MAX_MSG_SIZE fuel l h m)).
Proof.
  induction fuel as [|fuel IH]; intros l h m H0 H1 Hb Hc; cbn [proxy_loop].
  - constructor.
  - unfold bind.
    destruct (proxy_iter_fixed_io fd0 fd1 bio l h m H0 H1 Hb Hc) as [He Hl].
    destruct (proxy_iter env ECDH_MAX_MSG_SIZE l h m)
      as [[[|] l1] m1 e1|s1 m1 e1|m1 e1]; cbn [events] in *; auto.
    + destruct Hl as (A & B & C & D).
      rewrite events_of_prepend. apply Forall_app. split; auto.
    + cbn. rewrite app_nil_r. exact He.
Qed.

(** X14: the relay loop works on what it found when it started.  In
    every run of [proxy_start], every [poll] waits without timeout on
    the same two descriptors, the ECDH socket of the struct and the
    descriptor [BIO_get_fd] gave for the TLS connection, and every
    [BIO_read] and [BIO_write] is on the TLS connection of the struct. *)
Theorem proxy_start_fixed_io fuel h m :
  let bio := TLSConnection.conn (tlsconn (proxy m)) in
  exists fd,
    In (C_BIO_get_fd bio, fd)
       (events (proxy_start env ECDH_MAX_MSG_SIZE fuel h m)) /\
    Forall (fixed_io (ECDHServer.socket_fd (ecdhconn (proxy m)))
                     (to_int fd) bio)
           (events (proxy_start env ECDH_MAX_MSG_SIZE fuel h m)).
Proof.
  cbv zeta.
  apply (after_start _ (fun o => exists fd, In _ (events o) /\
                                            Forall _ (events o))).
  unfold proxy_start. repeat step. cbv beta zeta.
  unfold after. rewrite events_of_prepend, bind_ret_r. cbn [app].
  exists r. split; [in_events|].
  repeat (lazymatch goal with
          | |- Forall _ (_ :: _) => apply Forall_cons
          end; [exact I|]).
  apply proxy_loop_fixed_io; reflexivity.
Qed.

(** *** The connection target *)

Lemma tls_config_conn_target h m : target_post m (tls_config_conn env h m).
Proof.
  apply after_start. unfold tls_config_conn. repeat step.
  all: cbn [app target_post proxy tlsconn set_proxy
            TLSConnection.set_conn TLSConnection.conn
            TLSConnection.host TLSConnection.port]; try exact I.
  all: intros R; try discriminate.
  all: returned_1; split; in_events.
Qed.

Lemma setup_tlsconn_target h m :
  connect_target_post m (setup_tlsconn env h m).
Proof.
  apply after_start. unfold setup_tlsconn.
  apply (after_bind_spec (ctx_post m) _ _ _ _ _ _ (tls_config_ctx_spec h m)).
  intros [r1 m1 e1| |] P1; try contradiction. intros h1.
  destruct P1 as (_ & _ & (Hh1 & Hp1 & _) & _ & (Qa1 & _ & _) & _).
  pose proof (cleanup_events_quiet (tlsconn (proxy m1)) EXIT_FAILURE)
    as (Ka1 & _ & _).
  cbn [app]. step.
  { apply after_proxy_error. intros pre bio x post H. exfalso.
    cbn [events] in H.
    apply (absent_no_split is_connect _ _ _ _ H eq_refl). quiet_trace. }
  step. cbv beta.
  apply (after_bind_spec (fun o => conn_post m1 o /\ target_post m1 o)
                         _ _ _ _ _ _
                         (conj (tls_config_conn_spec _ m1)
                               (tls_config_conn_target _ m1))).
  intros [r2 m2 e2| |] [P2 T2]; try contradiction. intros h2.
  destruct P2 as (_ & _ & _ & _ & (Qa2 & _ & _) & _).
  pose proof (cleanup_events_quiet (tlsconn (proxy m2)) EXIT_FAILURE)
    as (Ka2 & _ & _).
  step.
  { apply after_proxy_error. intros pre bio x post H. exfalso.
    cbn [events] in H.
    apply (absent_no_split is_connect _ _ _ _ H eq_refl). quiet_trace. }
  apply negb_false_iff, Z.eqb_eq in Heqb0. subst r2.
  destruct (T2 eq_refl) as [Th Tp]. rewrite Hh1 in Th. rewrite Hp1 in Tp.
  step. cbv beta.
  apply (after_bind_spec (connect_post m2) _ _ _ _ _ _
                         (tls_connect_spec _ m2)).
  intros [r3 m3 e3| |] P3; try contradiction. intros h3.
  destruct P3 as (-> & x3 & e3' & -> & Qa3 & _).
  assert (Hcfg : forall pre bio x post tail,
             (e1 ++ e2) ++
               (C_BIO_do_connect (TLSConnection.conn (tlsconn (proxy m2))), x3)
                 :: e3' ++ tail
             = pre ++ (C_BIO_do_connect bio, x) :: post ->
             absent is_connect tail ->
             In (C_BIO_set_conn_hostname
                   bio (TLSConnection.host (tlsconn (proxy m))), 1) pre /\
             In (C_BIO_set_conn_port
                   bio (TLSConnection.port (tlsconn (proxy m))), 1) pre /\
             absent is_connect pre /\ absent is_connect post).
  { intros pre bio x post tail E Htail.
    pose proof E as E'.
    apply split_at_only with (p := is_connect) in E';
      [|quiet_trace..|reflexivity].
    destruct E' as (-> & E'). rewrite E' in E.
    apply app_inv_head in E. injection E as E. subst post.
    injection E' as E' _. subst bio.
    split; [apply in_or_app; right; exact Th|].
    split; [apply in_or_app; right; exact Tp|].
    split; quiet_trace. }
  step.
  { apply after_proxy_error. intros pre bio x post E.
    cbn [events app] in E. rewrite <- app_assoc in E.
    apply (Hcfg _ _ _ _ _ E). assumption. }
  step. step. intros pre bio x post E. cbn [events app] in E.
  apply (Hcfg pre bio x post []); [|reflexivity].
  rewrite app_nil_r. exact E.
Qed.

(** X15: the connection target.  Wherever the trace of [setup_tlsconn]
    shows a connection attempt, the events before it show that the host
    and the port of the configuration were set on that very BIO (both
    calls returned 1), and it is the only attempt of the run: a failed
    connection is not tried again. *)
Theorem setup_tlsconn_connects_once_to_target h m pre bio x post :
  events (setup_tlsconn env h m) = pre ++ (C_BIO_do_connect bio, x) :: post ->
  let tc := tlsconn (proxy m) in
  In (C_BIO_set_conn_hostname bio (TLSConnection.host tc), 1) pre /\
  In (C_BIO_set_conn_port bio (TLSConnection.port tc), 1) pre /\
  absent is_connect pre /\ absent is_connect post.
Proof.
  intros E. exact (setup_tlsconn_target h m pre bio x post E).
Qed.

(** *** From the command line to the connection *)

Lemma split_before_absent p (A B : Trace) pre y post :
  absent p B -> p y = true ->
  A ++ B = pre ++ y :: post ->
  exists post', A = pre ++ y :: post' /\ post = post' ++ B.
Proof.
  revert pre. induction A as [|a A IH]; intros pre HB Hy E.
  - cbn in E. exfalso. exact (absent_no_split p _ _ _ _ E Hy HB).
  - destruct pre as [|q pre]; cbn in E; injection E as -> E.
    + exists A. split; [reflexivity|]. symmetry. exact E.
    + destruct (IH pre HB Hy E) as (post' & -> & ->).
      exists post'. split; reflexivity.
Qed.

Lemma never_ecdh_recv_decrypt p :
  p (C_ecdh_recv_decrypt, 0) = false ->
  (forall s, p (C_exit s, 0) = false) ->
  never p (ecdh_recv_decrypt env).
Proof.
  intros H1 H2 h m. unfold absent, ecdh_recv_decrypt.
  destruct (ecdh_ret env h C_ecdh_recv_decrypt (ecdhconn (proxy m)));
    [destruct (recv_payload env h)|]; cbn; rewrite H1, ?H2; reflexivity.
Qed.

Lemma never_BIO_read p bio buf len :
  (forall r, p (C_BIO_read bio len, r) = false) ->
  never p (BIO_read env bio buf len).
Proof. intros H h m. unfold absent. cbn. rewrite H. reflexivity. Qed.

Lemma never_poll p l :
  (forall a b n t r, p (C_poll a b n t, r) = false) ->
  never p (poll env l).
Proof. intros H h m. unfold absent. cbn. rewrite H. reflexivity. Qed.

(** Takes a turn of the relay loop apart in the same way. *)
Ltac never_relays :=
  repeat first
    [ progress never_calls
    | apply never_ecdh_recv_decrypt; [reflexivity | intros ?; reflexivity]
    | apply never_BIO_read; intros ?; reflexivity
    | apply never_poll; intros; reflexivity
    | match goal with
      | |- never _ (let (_, _) := ?x in _) => destruct x
      end ].

Lemma proxy_iter_no_connect l :
  never is_connect (proxy_iter env ECDH_MAX_MSG_SIZE l).
Proof. unfold_turn. unfold_setup. never_relays. Qed.

Lemma proxy_loop_no_connect fuel :
  forall l, never is_connect (proxy_loop env ECDH_MAX_MSG_SIZE fuel l).
Proof.
  induction fuel as [|fuel IH]; intros l; cbn [proxy_loop].
  - apply never_out_of_fuel.
  - apply never_bind; [apply proxy_iter_no_connect|].
    intros [[|] l']; [apply IH | apply never_ret].
Qed.

Lemma proxy_start_no_connect fuel :
  never is_connect (proxy_start env ECDH_MAX_MSG_SIZE fuel).
Proof.
  unfold proxy_start. unfold_setup. never_calls.
  apply proxy_loop_no_connect.
Qed.

Lemma proxy_cleanup_no_connect : never is_connect (proxy_cleanup env).
Proof. unfold_setup. never_calls. Qed.

Lemma setup_ecdhconn_no_connect : never is_connect (setup_ecdhconn env).
Proof. unfold_setup. never_calls. Qed.

Lemma setup_ecdhconn_outcome h m :
  ecdh_setup_post m (setup_ecdhconn env h m).
Proof.
  split; [apply setup_ecdhconn_calls|].
  split; [apply setup_ecdhconn_no_connect|].
  apply (after_start _ (fun o => match o with
                                 | Returns _ m' _ =>
                                     tlsconn (proxy m') = tlsconn (proxy m)
                                 | _ => True
                                 end)).
  unfold setup_ecdhconn.
  repeat (apply after_call_ecdh; [intros ? ?; cbv beta | intros ? _]).
  2-8: exact I.
  apply after_ret. reflexivity.
Qed.

Lemma proxy_get_options_outcome argv h m :
  get_options_post env argv m (proxy_get_options env argv h m).
Proof.
  unfold proxy_get_options, get_options_post. cbv zeta.
  destruct (1 =? Z.of_nat (List.length argv)); [reflexivity|].
  pose proof (options_loop_trace (hd ""%string argv)
                (getopt_long env argv) h m) as T.
  pose proof (options_loop_cases (hd ""%string argv)
                (getopt_long env argv) h m) as C.
  unfold options_loop_events in T.
  destruct (first_special (getopt_long env argv)) as [c|] eqn:F.
  - destruct C as (m' & e & C). rewrite C in *. cbn [events] in T. subst e.
    destruct (Ascii.eqb c "h"); [reflexivity|].
    apply cleanup_events_quiet.
  - clear C T.
    destruct (options_loop_stores (hd ""%string argv) _ h m F)
      as (p' & -> & S).
    split; [reflexivity|]. exists p'. split; [reflexivity|exact S].
Qed.

Lemma absent_cons p (a : Event) l :
  p a = false -> absent p l -> absent p (a :: l).
Proof. unfold absent. cbn. intros -> H. exact H. Qed.

Ltac no_connect E :=
  exfalso; cbn [events app] in E;
  apply (absent_no_split is_connect _ _ _ _ E eq_refl);
  rewrite <- ?app_assoc; cbn [app];
  repeat (apply absent_cons; [reflexivity|]);
  first [ reflexivity | assumption | apply cleanup_events_quiet
        | apply absent_app; split; assumption ].

(** X16: from the command line to the connection.  Wherever the trace
    of [main] shows a connection attempt, the command line named a remote
    host and a remote port, the arguments of the last [-I] and the last
    [-P] were set on the BIO that connects (both calls returned 1), it
    is the only attempt of the run, and before it the process had gone
    through its startup calls and the seven calls of the ECDH
    handshake, in this order. *)
Theorem main_connects_to_command_line fuel argv h m pre bio x post :
  events (main env ECDH_MAX_MSG_SIZE fuel argv h m)
  = pre ++ (C_BIO_do_connect bio, x) :: post ->
  exists host port,
    last_optarg "I" (getopt_long env argv) = Some host /\
    last_optarg "P" (getopt_long env argv) = Some port /\
    In (C_BIO_set_conn_hostname bio (Some host), 1) pre /\
    In (C_BIO_set_conn_port bio (Some port), 1) pre /\
    absent is_connect pre /\ absent is_connect post /\
    exists tail, map fst pre = startup_calls ++ handshake_calls ++ tail.
Proof.
  revert pre bio x post.
  change (main_connect_post env argv
            (main env ECDH_MAX_MSG_SIZE fuel argv h m)).
  apply after_start. unfold main.
  apply after_proxy_init. intros h1. step. cbn [app].
  apply (after_bind_spec
           (get_options_post env argv (set_proxy (initial_proxy env) m))
           _ _ _ _ _ _ (proxy_get_options_outcome argv _ _)).
  intros [[] m1 e1|s1 m1 e1|m1 e1] P1; try contradiction.
  2:{ intros pre bio x post E. exfalso. cbn [events] in E.
      apply (absent_no_split is_connect _ _ _ _ E eq_refl).
      apply absent_app. split; [reflexivity|exact P1]. }
  destruct P1 as (-> & p' & -> & (Hpath & _ & _)).
  pose proof (Hpath "I"%char ltac:(cbn; tauto)) as HI.
  pose proof (Hpath "P"%char ltac:(cbn; tauto)) as HP.
  cbn in HI, HP. clear Hpath.
  intros h2. cbn [app].
  apply (after_bind_spec
           (check_options_post env h2
              (set_proxy p' (set_proxy (initial_proxy env) m)))
           _ _ _ _ _ _ (proxy_check_options_outcome _ _)).
  intros o P. unfold check_options_post in P.
  destruct (ecdh_ret env h2 C_check_options _) as [e'|s].
  2:{ subst o. intros pre bio x post E. no_connect E. }
  cbv zeta in P. cbn [proxy set_proxy] in P. rewrite HI, HP in P.
  destruct (last_optarg "I" (getopt_long env argv)) as [host|] eqn:LI;
    destruct (last_optarg "P" (getopt_long env argv)) as [port|] eqn:LP;
    cbn [app] in P; subst o.
  2-4: intros pre bio x post E; no_connect E.
  intros h3. cbn [app].
  unfold proxy_main. apply after_assoc.
  apply (after_bind_spec (ecdh_setup_post _) _ _ _ _ _ _
                         (setup_ecdhconn_outcome _ _)).
  intros [r4 m4 e4|s4 m4 e4|m4 e4] (Hhs & Ha & Htc);
    cbn [handshake_post events] in *; try contradiction.
  2:{ intros pre bio x post E. no_connect E. }
  destruct Hhs as [_ Hhs]. intros h4. cbn [proxy set_proxy tlsconn] in Htc.
  cbv beta. apply after_assoc.
  lazymatch goal with
  | |- after _ (bind _ ?k _ _) _ =>
      assert (Hk : forall a, never is_connect (k a))
  end.
  { intros a. cbv beta.
    repeat first [ apply proxy_start_no_connect
                 | apply proxy_cleanup_no_connect
                 | apply never_ret
                 | apply never_bind; [|intros ?] ]. }
  apply (after_bind_spec (connect_target_post m4) _ _ _ _ _ _
                         (setup_tlsconn_target _ _)).
  intros o P.
  assert (G : forall rest pre bio x post,
             absent is_connect rest ->
             ([(C_secure_memset_proxy, 0); (C_init, 0);
               (C_set_applog_severity_threshold DEMO_LOG_LEVEL, 0);
               (C_check_options, 0)] ++ e4) ++ events o ++ rest
             = pre ++ (C_BIO_do_connect bio, x) :: post ->
             exists host0 port0,
               last_optarg "I" (getopt_long env argv) = Some host0 /\
               last_optarg "P" (getopt_long env argv) = Some port0 /\
               In (C_BIO_set_conn_hostname bio (Some host0), 1) pre /\
               In (C_BIO_set_conn_port bio (Some port0), 1) pre /\
               absent is_connect pre /\ absent is_connect post /\
               exists tail,
                 map fst pre = startup_calls ++ handshake_calls ++ tail).
  { intros rest pre bio x post Hr E.
    assert (He : absent is_connect
                   ([(C_secure_memset_proxy, 0); (C_init, 0);
                     (C_set_applog_severity_threshold DEMO_LOG_LEVEL, 0);
                     (C_check_options, 0)] ++ e4))
      by (apply absent_app; split; [reflexivity|exact Ha]).
    destruct (split_after_absent is_connect _ _ pre (C_BIO_do_connect bio, x)
                post He eq_refl E)
      as (pre' & -> & E2).
    destruct (split_before_absent is_connect _ _ pre'
                (C_BIO_do_connect bio, x) post Hr eq_refl E2)
      as (post' & E3 & ->).
    destruct (P _ _ _ _ E3) as (Th & Tp & Apre & Apost).
    rewrite Htc, HI in Th. rewrite Htc, HP in Tp.
    exists host, port.
    split; [exact LI|]. split; [exact LP|].
    split; [apply in_or_app; right; exact Th|].
    split; [apply in_or_app; right; exact Tp|].
    split; [apply absent_app; split; assumption|].
    split; [apply absent_app; split; assumption|].
    exists (map fst pre'). rewrite !map_app, Hhs. reflexivity. }
  destruct o as [r5 m5 e5|s5 m5 e5|m5 e5]; cbn [events] in G.
  - intros h5. unfold after. intros pre bio x post E.
    rewrite events_of_prepend, <- app_assoc in E.
    refine (G _ _ _ _ _ _ E). apply (Hk r5).
  - intros pre bio x post E. cbn [events] in E.
    apply (G [] pre bio x post); [reflexivity|].
    rewrite app_nil_r. exact E.
  - intros pre bio x post E. cbn [events] in E.
    apply (G [] pre bio x post); [reflexivity|].
    rewrite app_nil_r. exact E.
Qed.

End Properties.

(** ** Runs of the model *)



(** C2: the ECDH library ending the process.  On the complete command
    line, with [create_server_socket] calling [exit(0)], the process
    exits with status 0 although no usage text was asked for. *)
Example library_exit_status_0 :
  ~ usage_requested quitting_env sample_argv /\
  exists m e, library_exit_run = Exits 0 m e /\ library_exit 0 e.
Proof.
  split.
  - intros [H|H]; vm_compute in H; discriminate.
  - do 2 eexists. split; [vm_compute; reflexivity|].
    exists [(C_secure_memset_proxy, 0); (C_init, 0);
            (C_set_applog_severity_threshold 7, 0); (C_check_options, 0)],
           C_create_server_socket.
    split; reflexivity.
Qed.

(** C3: a loop turn with both sides readable, after the inbound half
    has relayed [hello]. *)
Lemma relay_outbound_cases_witness :
  (forall l' h' m',
     outbound_post (sample_env None) 8 l' h' m'
                   (relay_outbound (sample_env None) 8 POLLIN l' h' m')) /\
  outbound_loop_post (sample_env None) 8 2 relayed_locals
    (([] ++ [polled (sample_env None) sample_locals []]) ++ relayed_events)
    relayed_mem
    (polled (sample_env None) sample_locals [] :: relayed_events)
    (proxy_loop (sample_env None) 8 3 sample_locals []
                (configured None None)).
Proof.
  apply (relay_outbound_cases (sample_env None) 8 2 sample_locals []
           (configured None None) POLLIN POLLIN
           relayed_locals relayed_mem relayed_events).
  - reflexivity.
  - vm_compute. discriminate.
  - vm_compute. reflexivity.
Defined.

(** C6: a run in which the connection is attempted. *)
Lemma tls_context_configured_before_connect_witness :
  absent is_failed_floor (firstn 26 (events mutual_tls_setup)) /\
  exists ctx,
    In (C_BIO_new_ssl_connect ctx, 12288)
       (firstn 26 (events mutual_tls_setup)) /\
    In (C_SSL_CTX_set_min_proto_version ctx TLS1_2_VERSION, 1)
       (firstn 26 (events mutual_tls_setup)) /\
    In (C_SSL_CTX_set_verify ctx SSL_VERIFY_PEER, 0)
       (firstn 26 (events mutual_tls_setup)) /\
    In (C_SSL_CTX_set_verify_depth ctx 5, 0)
       (firstn 26 (events mutual_tls_setup)).
Proof.
  apply (tls_context_configured_before_connect
           (sample_env None) []
           (configured (Some "client.key"%string) (Some "client.crt"%string))
           (firstn 26 (events mutual_tls_setup)) 12288 1
           (skipn 27 (events mutual_tls_setup))).
  vm_compute. reflexivity.
Defined.

(** C7: the same run. *)
Lemma sni_and_verified_host_are_the_configured_host_witness :
  exists ssl,
    In (C_BIO_get_ssl 12288, ssl) (firstn 26 (events mutual_tls_setup)) /\
    In (C_SSL_set_tlsext_host_name ssl (Some "keyserver.example"%string), 1)
       (firstn 26 (events mutual_tls_setup)) /\
    In (C_SSL_set1_host ssl (Some "keyserver.example"%string), 1)
       (firstn 26 (events mutual_tls_setup)).
Proof.
  apply (sni_and_verified_host_are_the_configured_host
           (sample_env None) []
           (configured (Some "client.key"%string) (Some "client.crt"%string))
           (firstn 26 (events mutual_tls_setup)) 12288 1
           (skipn 27 (events mutual_tls_setup))).
  vm_compute. reflexivity.
Defined.

(** C8: a client key without a client certificate is not rejected: every
    call succeeds, the connection is attempted and [setup_tlsconn]
    returns 0. *)
Lemma key_without_cert_is_not_rejected :
  TLSConnection.client_key_path
    (tlsconn (proxy (configured (Some "client.key"%string) None)))
  = Some "client.key"%string /\
  TLSConnection.client_cert_path
    (tlsconn (proxy (configured (Some "client.key"%string) None))) = None /\
  existsb is_connect (events key_only_setup) = true /\
  exists m e, key_only_setup = Returns 0 m e.
Proof.
  repeat split. do 2 eexists. vm_compute. reflexivity.
Qed.

(** C8 (amended): a run with a key only; the key is loaded, no
    certificate is. *)
Lemma client_credentials_loaded_one_by_one_witness :
  absent is_use_certificate_file (events key_only_setup) /\
  exists ctx,
    In (C_BIO_new_ssl_connect ctx, 12288)
       (firstn 24 (events key_only_setup)) /\
    In (C_SSL_CTX_use_PrivateKey_file ctx (Some "client.key"%string)
          SSL_FILETYPE_PEM, 1)
       (firstn 24 (events key_only_setup)).
Proof.
  destruct (client_credentials_loaded_one_by_one
              (sample_env None) []
              (configured (Some "client.key"%string) None)
              (firstn 24 (events key_only_setup)) 12288 1
              (skipn 25 (events key_only_setup)))
    as (_ & Hc & ctx & Hb & Hk & _).
  - vm_compute. reflexivity.
  - split.
    + apply Hc. reflexivity.
    + exists ctx. split; [exact Hb|]. apply Hk. reflexivity.
Defined.

(** The complete command line against the environment in which every
    call succeeds: the session runs until the TLS server closes, and
    [main] returns [EXIT_SUCCESS]. *)
Example full_write_run_returns :
  exists m e, full_write_run = Returns EXIT_SUCCESS m e /\ In tls_closed e.
Proof. do 2 eexists. split; [vm_compute; reflexivity | vm_compute; tauto]. Qed.



(** C9: the payload buffer on a short write.  [BIO_write] takes 3 of
    the 5 payload bytes; the process exits with [EXIT_FAILURE] without a
    call to [kmyth_clear_and_free], and the block that holds the
    decrypted payload is still allocated and still holds it.  On the
    path where the write is complete the same block ends zeroed and
    freed.  The relay buffer of [proxy_start] still holds the last
    plaintext read from TLS when the function returns. *)
Theorem payload_not_cleared_on_short_write :
  (exists m e, short_write_run = Exits EXIT_FAILURE m e) /\
  In (C_BIO_write 12288 hello 5, 3) (events short_write_run) /\
  absent is_clear_and_free (events short_write_run) /\
  heap_lookup 20480 (heap (final_mem short_write_run))
  = Some (mkBlock hello true) /\
  heap_lookup 20480 (heap (final_mem full_write_run))
  = Some (mkBlock (zeros 5) false) /\
  exists l m e,
    relay_frame_run = Returns l m e /\
    tls_msg_buf l = world ++ zeros 3.
Proof.
  split; [do 2 eexists; vm_compute; reflexivity|].
  split; [vm_compute; tauto|].
  split; [vm_compute; reflexivity|].
  split; [vm_compute; reflexivity|].
  split; [vm_compute; reflexivity|].
  do 3 eexists. split; vm_compute; reflexivity.
Qed.

(** X4: the session setup with both client credentials. *)
Lemma setup_tlsconn_releases_handles_witness :
  setup_handles_post mutual_tls_setup.
Proof.
  apply (setup_tlsconn_releases_handles
           (sample_env None) []
           (configured (Some "client.key"%string) (Some "client.crt"%string)));
    reflexivity.
Defined.

(** X6: the complete command line. *)
Lemma proxy_get_options_last_wins_witness :
  exists p',
    proxy_get_options (sample_env None) sample_argv [] empty_mem
    = Returns tt (set_proxy p' empty_mem) [] /\
    options_stored (sample_env None)
                   (getopt_long (sample_env None) sample_argv)
                   (proxy empty_mem) p'.
Proof.
  apply (proxy_get_options_last_wins (sample_env None) sample_argv []
                                     empty_mem).
  - vm_compute. discriminate.
  - reflexivity.
Defined.

(** X8: a wakeup of the idle environment. *)
Lemma proxy_iter_idle_witness :
  let polled := (C_poll 4 5 NUM_POLL_FDS (-1), 1) in
  proxy_iter idle_env 8 sample_locals [] (configured None None)
  = Returns (Continue, sample_locals) (configured None None) [polled] /\
  forall fuel,
    proxy_loop idle_env 8 (S fuel) sample_locals [] (configured None None)
    = prepend [polled]
              (proxy_loop idle_env 8 fuel sample_locals ([] ++ [polled])
                          (configured None None)).
Proof.
  apply (proxy_iter_idle idle_env 8 sample_locals [] (configured None None)
                         0 0); reflexivity.
Defined.

(** X9: the relay loop of a session without client credentials, with a
    relay buffer of 8 bytes. *)
Lemma proxy_start_within_buffer_witness :
  Forall (within_buffer 8)
         (events (proxy_start (sample_env None) 8 3 [] (configured None None))).
Proof.
  apply (proxy_start_within_buffer (sample_env None) 8 3 []
                                   (configured None None)).
  intros h bio. simpl. destruct (existsb is_BIO_read h); vm_compute;
    discriminate.
Defined.

(** X10: the first call into OpenSSL of a session. *)
Lemma proxy_main_phases_witness :
  exists tail,
    map fst (firstn 7 (events session_run)) = handshake_calls ++ tail.
Proof.
  destruct (proxy_main_phases
              (sample_env None) 8 3 [] (configured None None)
              (firstn 7 (events session_run))
              (C_TLS_client_method, 4096)
              (skipn 8 (events session_run))) as [H _].
  - vm_compute. reflexivity.
  - apply H. reflexivity.
Defined.

(** X11: the complete command line, the session running until the TLS
    server closes. *)
Lemma main_returns_without_leak_witness :
  exists c b,
    c <> NULL /\ b <> NULL /\
    ctx_created (events full_write_run) = [c] /\
    bio_created (events full_write_run) = [b] /\
    ctx_freed (events full_write_run) = [c] /\
    bio_freed (events full_write_run) = [b] /\
    proxy (final_mem full_write_run) = initial_proxy (sample_env None).
Proof.
  apply (main_returns_without_leak
           (sample_env None) 8 3 sample_argv [] empty_mem EXIT_SUCCESS
           (final_mem full_write_run) (events full_write_run)).
  vm_compute. reflexivity.
Defined.

(** X15: the session setup with both client credentials. *)
Lemma setup_tlsconn_connects_once_to_target_witness :
  In (C_BIO_set_conn_hostname 12288 (Some "keyserver.example"%string), 1)
     (firstn 26 (events mutual_tls_setup)) /\
  In (C_BIO_set_conn_port 12288 (Some "443"%string), 1)
     (firstn 26 (events mutual_tls_setup)) /\
  absent is_connect (firstn 26 (events mutual_tls_setup)) /\
  absent is_connect (skipn 27 (events mutual_tls_setup)).
Proof.
  apply (setup_tlsconn_connects_once_to_target
           (sample_env None) []
           (configured (Some "client.key"%string) (Some "client.crt"%string))
           (firstn 26 (events mutual_tls_setup)) 12288 1
           (skipn 27 (events mutual_tls_setup))).
  vm_compute. reflexivity.
Defined.

(** X16: the complete command line. *)
Lemma main_connects_to_command_line_witness :
  exists host port,
    last_optarg "I" (getopt_long (sample_env None) sample_argv) = Some host /\
    last_optarg "P" (getopt_long (sample_env None) sample_argv) = Some port /\
    In (C_BIO_set_conn_hostname 12288 (Some host), 1)
       (firstn 33 (events full_write_run)) /\
    In (C_BIO_set_conn_port 12288 (Some port), 1)
       (firstn 33 (events full_write_run)) /\
    absent is_connect (firstn 33 (events full_write_run)) /\
    absent is_connect (skipn 34 (events full_write_run)) /\
    exists tail,
      map fst (firstn 33 (events full_write_run))
      = startup_calls ++ handshake_calls ++ tail.
Proof.
  apply (main_connects_to_command_line
           (sample_env None) 8 3 sample_argv [] empty_mem
           (firstn 33 (events full_write_run)) 12288 1
           (skipn 34 (events full_write_run))).
  vm_compute. reflexivity.
Defined.
